(** * Plugin discovery, loading and registration engine of [server.py]

    A shallow embedding of [PluginManager] (src/server.py): the manifest
    reader, the per-plugin loader [_load_plugin], the orchestrator
    [load_plugins] and the introspection methods, followed by the
    properties the specification states about them.

    Conventions of the embedding:
    - a Python [str] is a [string]; an [ascii] stands for a code point
      below 256 (Latin-1 range), and the character classes of [str.strip]
      and [str.lower] are written out for that range;
    - a Python [dict] is an insertion-ordered association list ([pydict]);
    - code that can raise lives in a state-and-exception monad [Py]: the
      state survives a raise, as in Python;
    - the operating system and the plugins' own code are an oracle
      ([World]): which paths exist, what a file contains, what importing
      a file does, what calling a plugin function does.  Plugin code acts
      on the application object it is given and then returns or raises an
      exception that has a text ([str(e)] returns); it does not reach the
      manager, the search path or the disk.  The disk does not change
      during a load;
    - [World] answers every call.  The calls that can fail on their own
      account (the tests of a path, the reading of a directory, the
      creation of a module, [print]) are added by [OS], and the engine
      is followed once more over it ([_load_plugin_os],
      [load_plugins_os]): what is said about the engine returning, and
      about what leaves it, is said there. *)

From Stdlib Require Import Ascii String NArith Lia.
From stdpp Require Import base option list strings gmap.

#[local] Set Warnings "-clear-no-such-hyp".

(** ** Python strings *)

Module PyStr.

(** [str.isspace] on one code point below 256: U+0009..U+000D,
    U+001C..U+0020, U+0085 and U+00A0. *)
Definition isspace (c : ascii) : bool :=
  let n := N_of_ascii c in
  ((9 <=? n) && (n <=? 13) || (28 <=? n) && (n <=? 32)
   || (n =? 133) || (n =? 160))%N.

Fixpoint lstrip (s : string) : string :=
  match s with
  | EmptyString => EmptyString
  | String c r => if isspace c then lstrip r else s
  end.

Fixpoint rstrip (s : string) : string :=
  match s with
  | EmptyString => EmptyString
  | String c r =>
      match rstrip r with
      | EmptyString => if isspace c then EmptyString else String c EmptyString
      | r' => String c r'
      end
  end.

(** [s.strip()] *)
Definition strip (s : string) : string := rstrip (lstrip s).

(** [s.startswith(p)] *)
Fixpoint startswith (p s : string) : bool :=
  match p, s with
  | EmptyString, _ => true
  | String a p', String b s' => bool_decide (a = b) && startswith p' s'
  | String _ _, EmptyString => false
  end.

(** [c in s] for a one-character [c] *)
Fixpoint contains (c : ascii) (s : string) : bool :=
  match s with
  | EmptyString => false
  | String b r => bool_decide (b = c) || contains c r
  end.

(** [s.split(sep, maxsplit)] for a one-character separator *)
Fixpoint split (sep : ascii) (s : string) (maxsplit : nat) {struct s}
  : list string :=
  match s with
  | EmptyString => [EmptyString]
  | String c r =>
      match maxsplit with
      | O => [s]
      | S m =>
          if bool_decide (c = sep) then EmptyString :: split sep r m
          else match split sep r maxsplit with
               | h :: t => String c h :: t
               | [] => [String c EmptyString]
               end
      end
  end.

(** [str.lower] on one code point below 256: A..Z and the Latin-1
    capitals U+00C0..U+00DE (U+00D7, the multiplication sign, apart). *)
Definition lower_char (c : ascii) : ascii :=
  let n := N_of_ascii c in
  if ((65 <=? n) && (n <=? 90)
      || (192 <=? n) && (n <=? 222) && negb (n =? 215))%N
  then ascii_of_N (n + 32) else c.

Fixpoint lower (s : string) : string :=
  match s with
  | EmptyString => EmptyString
  | String c r => String (lower_char c) (lower r)
  end.

(** [s.replace(old, new)] for one-character [old] and [new] *)
Fixpoint replace (old new : ascii) (s : string) : string :=
  match s with
  | EmptyString => EmptyString
  | String c r =>
      String (if bool_decide (c = old) then new else c) (replace old new r)
  end.

Definition LF : ascii := "010"%char.
Definition CR : ascii := "013"%char.

(** Text-mode reading translates [\r\n] and a lone [\r] to [\n]. *)
Fixpoint universal_newlines (s : string) : string :=
  match s with
  | EmptyString => EmptyString
  | String c r =>
      if bool_decide (c = CR) then
        String LF
          match r with
          | String c' r' =>
              if bool_decide (c' = LF) then universal_newlines r'
              else universal_newlines r
          | EmptyString => EmptyString
          end
      else String c (universal_newlines r)
  end.

(** The lines of a translated text, each with its terminator. *)
Fixpoint keepends (s : string) : list string :=
  match s with
  | EmptyString => []
  | String c r =>
      if bool_decide (c = LF) then String LF EmptyString :: keepends r
      else match keepends r with
           | [] => [String c EmptyString]
           | l :: ls => String c l :: ls
           end
  end.

(** [for line in f] over a file opened in text mode *)
Definition readlines (text : string) : list string :=
  keepends (universal_newlines text).

End PyStr.

(** ** Python dictionaries *)

Module PyDict.
Section Dict.
Context {K V : Type} `{EqDecision K}.

(** Insertion-ordered, one binding per key. *)
Definition pydict := list (K * V).

(** [d.get(k)] *)
Fixpoint dict_get (k : K) (d : pydict) : option V :=
  match d with
  | [] => None
  | (k', v) :: d' => if decide (k' = k) then Some v else dict_get k d'
  end.

(** [d.get(k, default)] *)
Definition dict_get_default (k : K) (default : V) (d : pydict) : V :=
  match dict_get k d with Some v => v | None => default end.

(** [d[k] = v]: an existing key keeps its position. *)
Fixpoint dict_set (k : K) (v : V) (d : pydict) : pydict :=
  match d with
  | [] => [(k, v)]
  | (k', v') :: d' =>
      if decide (k' = k) then (k', v) :: d'
      else (k', v') :: dict_set k v d'
  end.

(** [list(d.keys())] *)
Definition dict_keys (d : pydict) : list K := map fst d.
End Dict.
Global Arguments pydict : clear implicits.
End PyDict.

Export PyStr PyDict.

(** ** Exceptions, objects and the environment *)

(** A raised exception: its class name and [str(e)].  Python's hierarchy
    matters in one respect only: [except Exception] matches instances of
    [Exception], not the other subclasses of [BaseException]
    ([SystemExit], [KeyboardInterrupt], [GeneratorExit]). *)
Inductive exn :=
| PyException (cls msg : string)
| PyBaseException (cls msg : string).

Definition isinstance_Exception (e : exn) : bool :=
  match e with PyException _ _ => true | PyBaseException _ _ => false end.

Definition exn_str (e : exn) : string :=
  match e with PyException _ msg | PyBaseException _ msg => msg end.

Inductive outcome (A : Type) :=
| Returned (a : A)
| Raised (e : exn).
Arguments Returned {A} a.
Arguments Raised {A} e.

(** A path is the sequence of segments it was built from;
    [Path("plugin") / "ILL"] is [["plugin"; "ILL"]]. *)
Definition Path := list string.

Definition Path_of (s : string) : Path := [s].

(** [p / s] *)
Definition joinpath (p : Path) (s : string) : Path := p ++ [s].
Infix "//" := joinpath (at level 40, left associativity).

(** [p.name] *)
Definition path_name (p : Path) : string := List.last p "".

(** [str(p)] *)
Fixpoint path_str (p : Path) : string :=
  match p with
  | [] => "."
  | [s] => s
  | s :: p' => s +:+ "/" +:+ path_str p'
  end.

(** The dispatch surface handed to the registration functions: [self.app]
    is [None] until [load_plugins] stores the FastAPI application, of which
    the model keeps the registered routes. *)
Inductive app_obj :=
| PyNone
| FastAPI (routes : list string).

(** An attribute of a plugin module: a callable, given by what calling it
    on the application object does to that object and whether it then
    raises, or any other value. *)
Inductive pyobj :=
| Callable (f : app_obj → app_obj * option exn)
| NotCallable.

(** A module is its namespace. *)
Abbreviation py_module := (gmap string pyobj).

Inductive file_read :=
| Text (s : string)
| ReadError (msg : string).

(** What [spec_from_file_location], [module_from_spec] and [exec_module]
    do for a file: no loader handles it (the spec is [None] and
    [module_from_spec] raises on it), or its top-level code raises, or it
    runs to the end and leaves a namespace. *)
Inductive import_result :=
| NoSpec
| ExecRaises (e : exn)
| ExecReturns (m : py_module).

Record World := {
  w_exists : Path → bool;          (* p.exists() *)
  w_is_dir : Path → bool;          (* p.is_dir() *)
  w_iterdir : Path → list string;  (* the entry names of p.iterdir(), in order *)
  w_open : Path → file_read;       (* open(p, 'r', encoding='utf-8') and reading it *)
  w_import : Path → import_result;
}.

(** The lines [print] writes. *)
Inductive message :=
| msg_plugin_dir_not_found (plugin_dir : string)
| msg_config_not_found (plugin_name : string)
| msg_main_file_not_found (plugin_name main_file : string)
| msg_loaded_and_registered (plugin_name : string)
| msg_register_function_not_found (plugin_name function_name : string)
| msg_load_error (plugin_name err : string).

(** The value stored under a key of a plugin's registry entry. *)
Inductive pyval :=
| VDict (d : pydict string string)
| VModule (m : py_module)
| VPath (p : Path).

(** The attributes of the [PluginManager] instance, with the two pieces of
    process-wide state its methods touch. *)
Record State := {
  plugin_dir : Path;
  plugins : pydict string (pydict string pyval);
  app : app_obj;
  sys_path : list string;
  stdout : list message;
}.

Definition set_plugins (f : pydict string (pydict string pyval) →
                            pydict string (pydict string pyval)) (s : State) :=
  {| plugin_dir := plugin_dir s; plugins := f (plugins s); app := app s;
     sys_path := sys_path s; stdout := stdout s |}.
Definition set_app (a : app_obj) (s : State) :=
  {| plugin_dir := plugin_dir s; plugins := plugins s; app := a;
     sys_path := sys_path s; stdout := stdout s |}.
Definition set_sys_path (f : list string → list string) (s : State) :=
  {| plugin_dir := plugin_dir s; plugins := plugins s; app := app s;
     sys_path := f (sys_path s); stdout := stdout s |}.
Definition set_stdout (f : list message → list message) (s : State) :=
  {| plugin_dir := plugin_dir s; plugins := plugins s; app := app s;
     sys_path := sys_path s; stdout := f (stdout s) |}.

(** ** The monad of Python statements *)

Definition Py (A : Type) : Type := State → outcome A * State.

Global Instance Py_ret : MRet Py := λ A a s, (Returned a, s).
Global Instance Py_bind : MBind Py := λ A B f m s,
  match m s with
  | (Returned a, s') => f a s'
  | (Raised e, s') => (Raised e, s')
  end.

Definition raise {A} (e : exn) : Py A := λ s, (Raised e, s).
Definition gets {A} (f : State → A) : Py A := λ s, (Returned (f s), s).
Definition modify (f : State → State) : Py unit := λ s, (Returned tt, f s).
Definition print (m : message) : Py unit := modify (set_stdout (λ out, out ++ [m])).
Definition lift {A} (r : outcome A) : Py A := λ s, (r, s).

(** [try: body except Exception as e: handler(e)] *)
Definition try_except_Exception (body : Py unit) (handler : exn → Py unit)
  : Py unit := λ s,
  match body s with
  | (Returned a, s') => (Returned a, s')
  | (Raised e, s') =>
      if isinstance_Exception e then handler e s' else (Raised e, s')
  end.

(** [f(self.app)]: calling what is not callable raises [TypeError]. *)
Definition call_with_app (f : pyobj) : Py unit := λ s,
  match f with
  | Callable g =>
      let '(a, r) := g (app s) in
      (match r with None => Returned tt | Some e => Raised e end, set_app a s)
  | NotCallable =>
      (Raised (PyException "TypeError" "object is not callable"), s)
  end.

(** ** Manifest reader (lines 62-70) *)

(** The body of the [for line in f] loop. *)
Definition parse_line (plugin_info : pydict string string) (line : string)
  : outcome (pydict string string) :=
  let line := strip line in
  if contains "=" line && negb (startswith "#" line) then
    match split "=" line 1 with
    | [key; value] => Returned (dict_set (strip key) (strip value) plugin_info)
    | _ => Raised (PyException "ValueError" "wrong number of values to unpack")
    end
  else Returned plugin_info.

Fixpoint parse_lines (lines : list string) (plugin_info : pydict string string)
  : outcome (pydict string string) :=
  match lines with
  | [] => Returned plugin_info
  | line :: rest =>
      match parse_line plugin_info line with
      | Returned plugin_info' => parse_lines rest plugin_info'
      | Raised e => Raised e
      end
  end.

Definition parse_manifest (text : string) : outcome (pydict string string) :=
  parse_lines (readlines text) [].

Definition read_manifest (w : World) (config_file : Path)
  : outcome (pydict string string) :=
  match w_open w config_file with
  | Text text => parse_manifest text
  | ReadError msg => Raised (PyException "OSError" msg)
  end.

(** ** [class PluginManager] *)

Section PluginManager.
Context (w : World).

(** [PluginManager(plugin_dir)], in a process whose module search path
    is [path] *)
Definition __init__ (plugin_dir : string) (path : list string) : State :=
  {| plugin_dir := Path_of plugin_dir; plugins := []; app := PyNone;
     sys_path := path; stdout := [] |}.

(** Line 94 *)
Definition register_function_name (plugin_name : string) : string :=
  "register_" +:+ replace "-" "_" (lower plugin_name) +:+ "_routes".

(** Lines 80-84 *)
Definition module_from_spec (main_file_path : Path) : Py unit :=
  match w_import w main_file_path with
  | NoSpec =>
      raise (PyException "AttributeError"
               "'NoneType' object has no attribute 'loader'")
  | ExecRaises _ | ExecReturns _ => mret tt
  end.

(** Line 91 *)
Definition exec_module (main_file_path : Path) : Py py_module :=
  match w_import w main_file_path with
  | ExecReturns m => mret m
  | ExecRaises e => raise e
  | NoSpec =>
      raise (PyException "AttributeError"
               "'NoneType' object has no attribute 'loader'")
  end.

(** Lines 113-118 *)
Definition plugin_record (plugin_info : pydict string string)
    (m : py_module) (plugin_path : Path) : pydict string pyval :=
  [("info", VDict plugin_info); ("module", VModule m);
   ("path", VPath plugin_path)].

(** Lines 51-121 *)
Definition _load_plugin (plugin_path : Path) : Py unit :=
  let plugin_name := path_name plugin_path in
  let config_file := plugin_path // "plugin.cfg" in
  if negb (w_exists w config_file) then
    print (msg_config_not_found plugin_name)
  else
    try_except_Exception
      (plugin_info ← lift (read_manifest w config_file);
       let main_file :=
         dict_get_default "plugin_main_file"
           (lower plugin_name +:+ ".py") plugin_info in
       let main_file_path := plugin_path // main_file in
       if negb (w_exists w main_file_path) then
         print (msg_main_file_not_found plugin_name main_file)
       else
         module_from_spec main_file_path;;
         let plugin_path_str := path_str plugin_path in
         path ← gets sys_path;
         (if bool_decide (plugin_path_str ∉ path)
          then modify (set_sys_path (cons plugin_path_str))
          else mret tt);;
         module ← exec_module main_file_path;
         let register_function_name := register_function_name plugin_name in
         match module !! register_function_name with
         | Some register_function =>
             if bool_decide (plugin_name = "GitHub") then
               call_with_app register_function;;
               print (msg_loaded_and_registered plugin_name)
             else
               call_with_app register_function;;
               print (msg_loaded_and_registered plugin_name)
         | None =>
             print (msg_register_function_not_found
                      plugin_name register_function_name)
         end;;
         modify (set_plugins
                   (dict_set plugin_name
                      (plugin_record plugin_info module plugin_path))))
      (λ e, print (msg_load_error plugin_name (exn_str e))).

(** Lines 34-38: the loop over [plugin_order] *)
Fixpoint load_in_order (dir : Path) (plugin_order : list string)
    (loaded_plugins : gset string) : Py (gset string) :=
  match plugin_order with
  | [] => mret loaded_plugins
  | plugin_name :: rest =>
      let plugin_path := dir // plugin_name in
      if w_exists w plugin_path && w_is_dir w plugin_path then
        _load_plugin plugin_path;;
        load_in_order dir rest ({[plugin_name]} ∪ loaded_plugins)
      else load_in_order dir rest loaded_plugins
  end.

(** Lines 47-49: the loop over [self.plugin_dir.iterdir()] *)
Fixpoint load_remaining (entries : list Path)
    (loaded_plugins : gset string) : Py unit :=
  match entries with
  | [] => mret tt
  | plugin_path :: rest =>
      (if w_is_dir w plugin_path
          && bool_decide (path_name plugin_path ∉ loaded_plugins)
       then _load_plugin plugin_path
       else mret tt);;
      load_remaining rest loaded_plugins
  end.

(** [p.iterdir()] *)
Definition iterdir (p : Path) : list Path := map (joinpath p) (w_iterdir w p).

(** Lines 21-49 *)
Definition load_plugins (app : app_obj) : Py unit :=
  modify (set_app app);;
  dir ← gets plugin_dir;
  if negb (w_exists w dir) then
    print (msg_plugin_dir_not_found (path_str dir))
  else
    let plugin_order := ["ILL"; "TTS"; "AntiPublic-Web"] in
    loaded_plugins ← load_in_order dir plugin_order ∅;
    let github_plugin_path := dir // "GitHub" in
    loaded_plugins ←
      (if w_exists w github_plugin_path && w_is_dir w github_plugin_path
       then _load_plugin github_plugin_path;;
            mret ({["GitHub"]} ∪ loaded_plugins)
       else mret loaded_plugins);
    load_remaining (iterdir dir) loaded_plugins.

(** Lines 123-125 *)
Definition get_plugin_info (plugin_name : string) (s : State) : pyval :=
  dict_get_default "info" (VDict [])
    (dict_get_default plugin_name [] (plugins s)).

(** Lines 127-129 *)
Definition list_plugins (s : State) : list string := dict_keys (plugins s).

End PluginManager.

(** ** Concrete environments

    A disk given as a table from paths to entries, for evaluating the
    engine on explicit inputs. *)

Inductive disk_entry :=
| DDir (names : list string)
| DFile (content : file_read) (imported : import_result).

Definition disk := list (Path * disk_entry).

Definition world_of (d : disk) : World :=
  {| w_exists p := bool_decide (is_Some (dict_get p d));
     w_is_dir p := match dict_get p d with Some (DDir _) => true | _ => false end;
     w_iterdir p := match dict_get p d with Some (DDir ns) => ns | _ => [] end;
     w_open p :=
       match dict_get p d with
       | Some (DFile c _) => c
       | Some (DDir _) => ReadError "Is a directory"
       | None => ReadError "No such file or directory"
       end;
     w_import p :=
       match dict_get p d with
       | Some (DFile _ i) => i
       | _ => NoSpec
       end |}.

(** A registration function that binds one route and returns. *)
Definition add_route (r : string) : pyobj :=
  Callable (λ a, match a with
                 | FastAPI rs => (FastAPI (rs ++ [r]), None)
                 | PyNone =>
                     (PyNone, Some (PyException "AttributeError"
                        "'NoneType' object has no attribute 'get'"))
                 end).

(** A registration function that raises [e] at once. *)
Definition raising (e : exn) : pyobj := Callable (λ a, (a, Some e)).

(** A source file whose top-level code defines the given names. *)
Definition source (ns : list (string * pyobj)) : disk_entry :=
  DFile (Text "") (ExecReturns (list_to_map ns)).

(** A text file, not importable. *)
Definition text_file (t : string) : disk_entry := DFile (Text t) NoSpec.

(** ** The manifest format as the specification words it

    "For each line, trim surrounding whitespace; skip lines that are
    empty, contain no '=', or begin with '#'; otherwise split on the first
    '=' into key and value, trim both, and insert into the mapping", a
    later binding of a key replacing an earlier one. *)

Module ManifestSpec.

(** The part of [s] before the first [c] (all of [s] if there is none). *)
Fixpoint before (c : ascii) (s : string) : string :=
  match s with
  | EmptyString => EmptyString
  | String b r => if bool_decide (b = c) then EmptyString
                  else String b (before c r)
  end.

(** The part of [s] after the first [c] (nothing if there is none). *)
Fixpoint after (c : ascii) (s : string) : string :=
  match s with
  | EmptyString => EmptyString
  | String b r => if bool_decide (b = c) then r else after c r
  end.

Definition skipped (line : string) : bool :=
  bool_decide (line = "") || negb (contains "=" line) || startswith "#" line.

Definition spec_line (m : gmap string string) (raw : string)
  : gmap string string :=
  let line := strip raw in
  if skipped line then m
  else <[strip (before "=" line) := strip (after "=" line)]> m.

Definition spec_manifest (text : string) : gmap string string :=
  foldl spec_line ∅ (readlines text).

End ManifestSpec.

(** ** The discovery order as the specification words it

    "First each name of the fixed priority list, in listed order, if and
    only if its directory exists; then the catch-all plugin if its
    directory exists; then every remaining subdirectory not attempted in
    the earlier phases, in directory-enumeration order." *)

Module LoadOrderSpec.
Section Order.
Context (w : World) (dir : Path).

Definition priority_list : list string := ["ILL"; "TTS"; "AntiPublic-Web"].
Definition catch_all : string := "GitHub".

Definition directory_exists (p : Path) : bool :=
  w_exists w p && w_is_dir w p.

(** The names among [names] whose directory exists. *)
Definition present (names : list string) : list string :=
  List.filter (λ n, directory_exists (dir // n)) names.

Definition phase1 : list Path :=
  List.filter directory_exists (map (joinpath dir) priority_list).
Definition phase2 : list Path :=
  List.filter directory_exists [dir // catch_all].
Definition phase3 : list Path :=
  List.filter
    (λ p, w_is_dir w p && bool_decide (p ∉ phase1 ++ phase2))
    (iterdir w dir).

Definition attempt_order : list Path := phase1 ++ phase2 ++ phase3.
End Order.
End LoadOrderSpec.

(** ** Runs of the loader *)

Section Runs.
Context (w : World).

(** [for p in ps: self._load_plugin(p)] *)
Fixpoint attempt_all (ps : list Path) : Py unit :=
  match ps with
  | [] => mret tt
  | p :: ps' => _load_plugin w p;; attempt_all ps'
  end.

(** The attempts such a loop makes from [s]: each path with the state
    in which its attempt starts.  The loop stops at an attempt that
    lets an exception through. *)
Fixpoint attempt_trace (ps : list Path) (s : State) : list (Path * State) :=
  match ps with
  | [] => []
  | p :: ps' =>
      (p, s) :: match _load_plugin w p s with
                | (Returned _, s') => attempt_trace ps' s'
                | (Raised _, _) => []
                end
  end.

(** The entry file of a plugin, as the specification resolves it. *)
Definition entry_file_name (plugin_name : string)
    (manifest : pydict string string) : string :=
  match dict_get "plugin_main_file" manifest with
  | Some f => f
  | None => lower plugin_name +:+ ".py"
  end.

(** The full load sequence of the plugin at [plugin_path] completes
    without error when started with the dispatch surface [a]: the
    manifest is present and parsed to [manifest], the entry file is
    found, its module runs to the end leaving [m], and the registration
    call, when the symbol exists, returns without raising. *)
Record completes (plugin_path : Path) (a : app_obj)
    (manifest : pydict string string) (m : py_module) : Prop := {
  manifest_present : w_exists w (plugin_path // "plugin.cfg") = true;
  manifest_parsed :
    ∃ text, w_open w (plugin_path // "plugin.cfg") = Text text
            ∧ parse_manifest text = Returned manifest;
  entry_found :
    w_exists w (plugin_path //
                entry_file_name (path_name plugin_path) manifest) = true;
  entry_executed :
    w_import w (plugin_path //
                entry_file_name (path_name plugin_path) manifest)
    = ExecReturns m;
  registration_returned :
    match m !! register_function_name (path_name plugin_path) with
    | None => True
    | Some (Callable f) => (f a).2 = None
    | Some NotCallable => False
    end;
}.


(** [_load_plugin] with lines 100-108 replaced by their [else] branch
    alone: call the registration function with the application, then
    log success, whatever the plugin is called. *)
Definition _load_plugin_uniform (plugin_path : Path) : Py unit :=
  let plugin_name := path_name plugin_path in
  let config_file := plugin_path // "plugin.cfg" in
  if negb (w_exists w config_file) then
    print (msg_config_not_found plugin_name)
  else
    try_except_Exception
      (plugin_info ← lift (read_manifest w config_file);
       let main_file :=
         dict_get_default "plugin_main_file"
           (lower plugin_name +:+ ".py") plugin_info in
       let main_file_path := plugin_path // main_file in
       if negb (w_exists w main_file_path) then
         print (msg_main_file_not_found plugin_name main_file)
       else
         module_from_spec w main_file_path;;
         let plugin_path_str := path_str plugin_path in
         path ← gets sys_path;
         (if bool_decide (plugin_path_str ∉ path)
          then modify (set_sys_path (cons plugin_path_str))
          else mret tt);;
         module ← exec_module w main_file_path;
         let register_function_name := register_function_name plugin_name in
         match module !! register_function_name with
         | Some register_function =>
             call_with_app register_function;;
             print (msg_loaded_and_registered plugin_name)
         | None =>
             print (msg_register_function_not_found
                      plugin_name register_function_name)
         end;;
         modify (set_plugins
                   (dict_set plugin_name
                      (plugin_record plugin_info module plugin_path))))
      (λ e, print (msg_load_error plugin_name (exn_str e))).
End Runs.

(** The paths [load_plugins] goes through from [s], and the attempts it
    makes. *)
Definition scheduled (w : World) (s : State) : list Path :=
  if w_exists w (plugin_dir s)
  then LoadOrderSpec.attempt_order w (plugin_dir s)
  else [].

Definition load_trace (w : World) (a : app_obj) (s : State)
  : list (Path * State) :=
  attempt_trace w (scheduled w s) (set_app a s).

(** [print(m)] as a state change. *)
Definition logged (m : message) (s : State) : State :=
  set_stdout (λ out, out ++ [m]) s.

(** Lines 87-89 as a state change. *)
Definition with_search_path (plugin_path : Path) (s : State) : State :=
  if bool_decide (path_str plugin_path ∉ sys_path s)
  then set_sys_path (cons (path_str plugin_path)) s
  else s.

(** Lines 114-118 as a state change. *)
Definition recorded (plugin_path : Path) (manifest : pydict string string)
    (m : py_module) (s : State) : State :=
  set_plugins (dict_set (path_name plugin_path)
                 (plugin_record manifest m plugin_path)) s.

(** The plugin a printed line is about. *)
Definition message_plugin (m : message) : string :=
  match m with
  | msg_plugin_dir_not_found _ => ""
  | msg_config_not_found n | msg_main_file_not_found n _
  | msg_loaded_and_registered n | msg_register_function_not_found n _
  | msg_load_error n _ => n
  end.

(** How often [x] occurs in a search path. *)
Definition occurrences (x : string) (path : list string) : nat :=
  length (List.filter (λ y, bool_decide (y = x)) path).

(** ** Sample plugin roots *)

Definition newline : string := String LF EmptyString.

(** The plugin root of the specification's ordering example: directories
    ILL, TTS, GitHub and X, no AntiPublic-Web, enumerated in the order
    [listing].  ILL is the plugin of the end-to-end scenario; TTS has no
    manifest; GitHub's registration function raises; X has no registration
    function. *)
Definition sample_root (listing : list string) : disk :=
  [ (["plugin"], DDir listing);
    (["plugin"; "ILL"], DDir ["plugin.cfg"; "ill.py"]);
    (["plugin"; "ILL"; "plugin.cfg"],
     text_file ("plugin_main_file=ill.py" +:+ newline
                +:+ "plugin_version=1.0" +:+ newline));
    (["plugin"; "ILL"; "ill.py"],
     source [("register_ill_routes", add_route "/ill")]);
    (["plugin"; "TTS"], DDir []);
    (["plugin"; "GitHub"], DDir ["plugin.cfg"; "github.py"]);
    (["plugin"; "GitHub"; "plugin.cfg"],
     text_file ("# catch-all" +:+ newline +:+ "plugin_version = 0.1"));
    (["plugin"; "GitHub"; "github.py"],
     source [("register_github_routes",
              raising (PyException "RuntimeError" "route conflict"))]);
    (["plugin"; "X"], DDir ["plugin.cfg"; "x.py"]);
    (["plugin"; "X"; "plugin.cfg"], text_file "");
    (["plugin"; "X"; "x.py"], source [("helper", NotCallable)]) ].

Definition sample_disk : disk := sample_root ["TTS"; "GitHub"; "X"; "ILL"].


(** Two plugins out of order: Web-Hook names an entry file that is not
    there, Mailer binds its registration name to a value that is not
    callable. *)
Definition faulty_disk : disk :=
  [ (["plugin"], DDir ["Web-Hook"; "Mailer"]);
    (["plugin"; "Web-Hook"], DDir ["plugin.cfg"]);
    (["plugin"; "Web-Hook"; "plugin.cfg"],
     text_file "plugin_main_file = main.py");
    (["plugin"; "Mailer"], DDir ["plugin.cfg"; "mailer.py"]);
    (["plugin"; "Mailer"; "plugin.cfg"], text_file "");
    (["plugin"; "Mailer"; "mailer.py"],
     source [("register_mailer_routes", NotCallable)]) ].

(** A plugin root with nothing in it. *)
Definition empty_disk : disk := [ (["plugin"], DDir []) ].

(** A plugin whose module raises while it is executed. *)
Definition broken_disk : disk :=
  [ (["plugin"], DDir ["Broken"]);
    (["plugin"; "Broken"], DDir ["plugin.cfg"; "broken.py"]);
    (["plugin"; "Broken"; "plugin.cfg"], text_file "");
    (["plugin"; "Broken"; "broken.py"],
     DFile (Text "")
       (ExecRaises (PyException "ImportError" "No module named 'requests'"))) ].

(** A fresh manager in a process with one search-path entry. *)
Definition fresh : State := __init__ "plugin" ["/usr/lib/python3"].

Definition sample_world : World := world_of sample_disk.
Definition faulty_world : World := world_of faulty_disk.

(** The manager after [load_plugins] on the sample root. *)
Definition sample_final : State :=
  (load_plugins sample_world (FastAPI []) fresh).2.

Definition sample_order : list Path :=
  [["plugin"; "ILL"]; ["plugin"; "TTS"]; ["plugin"; "GitHub"];
   ["plugin"; "X"]].

(** ** The introspection endpoint (lines 147-153) *)

(** [get_plugins_info()], the handler of [/plugins], reading the manager
    in state [s]. *)
Definition get_plugins_info (s : State) : pydict string pyval :=
  foldl (λ plugins_info plugin_name,
           dict_set plugin_name (get_plugin_info plugin_name s) plugins_info)
    [] (list_plugins s).

(** ** Manifest texts

    Texts made of [key=value] lines and of lines the reader passes over
    (comments, blank lines, lines without '='), each ended by a newline. *)

Module ManifestText.

Inductive item :=
| Entry (key value : string)
| Remark (text : string).

Definition no_newline (s : string) : bool :=
  negb (contains LF s) && negb (contains CR s).

(** No surrounding whitespace and no line break. *)
Definition clean (s : string) : bool :=
  bool_decide (strip s = s) && no_newline s.

(** A binding a manifest line can carry. *)
Definition entry_ok (key value : string) : bool :=
  clean key && clean value
  && negb (contains "=" key) && negb (startswith "#" key).

Definition remark_ok (text : string) : bool :=
  no_newline text
  && (negb (contains "=" (strip text)) || startswith "#" (strip text)).

Definition item_ok (i : item) : bool :=
  match i with
  | Entry key value => entry_ok key value
  | Remark text => remark_ok text
  end.

Definition render_item (i : item) : string :=
  match i with
  | Entry key value => key +:+ "=" +:+ value
  | Remark text => text
  end.

Fixpoint render (items : list item) : string :=
  match items with
  | [] => ""
  | i :: rest => render_item i +:+ String LF (render rest)
  end.

(** The bindings of the items, a later one replacing an earlier one of the
    same key. *)
Definition entries (items : list item) : pydict string string :=
  foldl (λ d i, match i with
                | Entry key value => dict_set key value d
                | Remark _ => d
                end) [] items.

(** The items that write a dictionary, one line per binding. *)
Definition of_dict (d : pydict string string) : list item :=
  map (λ kv, Entry kv.1 kv.2) d.

End ManifestText.

(** ** The calls that can fail outside the plugins

    [World] answers every call the engine makes.  The calls can also fail
    on their own account: [Path.exists] and [Path.is_dir] return [False]
    for a path that is not there and re-raise the other errors of [stat]
    ([PermissionError] below a directory that may not be searched);
    [Path.iterdir] raises when the path is not a directory or may not be
    read; [module_from_spec] raises what the loader's [create_module]
    raises ([ImportError] for an extension module that does not load);
    [print] raises when the console does not take the line.  [OS] adds to
    a [World], per path and per line, the failure of the call when it
    fails, and the definitions below follow lines 21-121 once more with
    every such call in its place, inside or outside the [try] block.
    Where every call answers they are [_load_plugin] and [load_plugins]
    (lemma [load_plugins_os_answering]). *)

Record OS := {
  os_world : World;
  os_stat_error : Path → option string;     (* p.exists(), p.is_dir() raise OSError *)
  os_listdir_error : Path → option string;  (* p.iterdir() raises OSError *)
  os_create_error : Path → option exn;      (* module_from_spec raises *)
  os_print_error : message → option exn;    (* print raises *)
}.

Section PluginManagerOS.
Context (o : OS).

(** [p.exists()] *)
Definition path_exists (p : Path) : Py bool :=
  match os_stat_error o p with
  | Some msg => raise (PyException "OSError" msg)
  | None => mret (w_exists (os_world o) p)
  end.

(** [p.is_dir()] *)
Definition path_is_dir (p : Path) : Py bool :=
  match os_stat_error o p with
  | Some msg => raise (PyException "OSError" msg)
  | None => mret (w_is_dir (os_world o) p)
  end.

(** [p.exists() and p.is_dir()] *)
Definition exists_and_is_dir (p : Path) : Py bool :=
  found ← path_exists p;
  if (found : bool) then path_is_dir p else mret false.

(** [p.iterdir()], as the [for] loop of line 47 draws from it: the
    directory is read when the first entry is asked for. *)
Definition path_iterdir (p : Path) : Py (list Path) :=
  match os_listdir_error o p with
  | Some msg => raise (PyException "OSError" msg)
  | None => mret (iterdir (os_world o) p)
  end.

(** [print(m)] *)
Definition print_os (m : message) : Py unit :=
  match os_print_error o m with
  | Some e => raise e
  | None => print m
  end.

(** Lines 80-84 *)
Definition module_from_spec_os (main_file_path : Path) : Py unit :=
  match w_import (os_world o) main_file_path with
  | NoSpec =>
      raise (PyException "AttributeError"
               "'NoneType' object has no attribute 'loader'")
  | ExecRaises _ | ExecReturns _ =>
      match os_create_error o main_file_path with
      | Some e => raise e
      | None => mret tt
      end
  end.

(** Lines 51-121 *)
Definition _load_plugin_os (plugin_path : Path) : Py unit :=
  let plugin_name := path_name plugin_path in
  let config_file := plugin_path // "plugin.cfg" in
  config_found ← path_exists config_file;
  if negb config_found then
    print_os (msg_config_not_found plugin_name)
  else
    try_except_Exception
      (plugin_info ← lift (read_manifest (os_world o) config_file);
       let main_file :=
         dict_get_default "plugin_main_file"
           (lower plugin_name +:+ ".py") plugin_info in
       let main_file_path := plugin_path // main_file in
       main_found ← path_exists main_file_path;
       if negb main_found then
         print_os (msg_main_file_not_found plugin_name main_file)
       else
         module_from_spec_os main_file_path;;
         let plugin_path_str := path_str plugin_path in
         path ← gets sys_path;
         (if bool_decide (plugin_path_str ∉ path)
          then modify (set_sys_path (cons plugin_path_str))
          else mret tt);;
         module ← exec_module (os_world o) main_file_path;
         let register_function_name := register_function_name plugin_name in
         match module !! register_function_name with
         | Some register_function =>
             if bool_decide (plugin_name = "GitHub") then
               call_with_app register_function;;
               print_os (msg_loaded_and_registered plugin_name)
             else
               call_with_app register_function;;
               print_os (msg_loaded_and_registered plugin_name)
         | None =>
             print_os (msg_register_function_not_found
                         plugin_name register_function_name)
         end;;
         modify (set_plugins
                   (dict_set plugin_name
                      (plugin_record plugin_info module plugin_path))))
      (λ e, print_os (msg_load_error plugin_name (exn_str e))).

(** Lines 34-38 *)
Fixpoint load_in_order_os (dir : Path) (plugin_order : list string)
    (loaded_plugins : gset string) : Py (gset string) :=
  match plugin_order with
  | [] => mret loaded_plugins
  | plugin_name :: rest =>
      let plugin_path := dir // plugin_name in
      is_plugin ← exists_and_is_dir plugin_path;
      if (is_plugin : bool) then
        _load_plugin_os plugin_path;;
        load_in_order_os dir rest ({[plugin_name]} ∪ loaded_plugins)
      else load_in_order_os dir rest loaded_plugins
  end.

(** Lines 47-49, once the directory has been read *)
Fixpoint load_remaining_os (entries : list Path)
    (loaded_plugins : gset string) : Py unit :=
  match entries with
  | [] => mret tt
  | plugin_path :: rest =>
      is_dir ← path_is_dir plugin_path;
      (if is_dir && bool_decide (path_name plugin_path ∉ loaded_plugins)
       then _load_plugin_os plugin_path
       else mret tt);;
      load_remaining_os rest loaded_plugins
  end.

(** Lines 21-49 *)
Definition load_plugins_os (app : app_obj) : Py unit :=
  modify (set_app app);;
  dir ← gets plugin_dir;
  root_found ← path_exists dir;
  if negb root_found then
    print_os (msg_plugin_dir_not_found (path_str dir))
  else
    let plugin_order := ["ILL"; "TTS"; "AntiPublic-Web"] in
    loaded_plugins ← load_in_order_os dir plugin_order ∅;
    let github_plugin_path := dir // "GitHub" in
    is_plugin ← exists_and_is_dir github_plugin_path;
    loaded_plugins ←
      (if (is_plugin : bool)
       then _load_plugin_os github_plugin_path;;
            mret ({["GitHub"]} ∪ loaded_plugins)
       else mret loaded_plugins);
    entries ← path_iterdir dir;
    load_remaining_os entries loaded_plugins.

(** [for p in ps: self._load_plugin(p)] and the attempts it makes. *)
Fixpoint attempt_all_os (ps : list Path) : Py unit :=
  match ps with
  | [] => mret tt
  | p :: ps' => _load_plugin_os p;; attempt_all_os ps'
  end.

Fixpoint attempt_trace_os (ps : list Path) (s : State)
  : list (Path * State) :=
  match ps with
  | [] => []
  | p :: ps' =>
      (p, s) :: match _load_plugin_os p s with
                | (Returned _, s') => attempt_trace_os ps' s'
                | (Raised _, _) => []
                end
  end.

(** What the operating system raises within the [try] block of the
    attempt on [plugin_path], if it raises there: the error of
    [main_file_path.exists()] (line 75) or of [module_from_spec]
    (line 84). *)
Definition inside_error (plugin_path : Path) : option exn :=
  let w := os_world o in
  if w_exists w (plugin_path // "plugin.cfg") then
    match read_manifest w (plugin_path // "plugin.cfg") with
    | Returned plugin_info =>
        let main_file_path :=
          plugin_path // entry_file_name (path_name plugin_path) plugin_info in
        match os_stat_error o main_file_path with
        | Some msg => Some (PyException "OSError" msg)
        | None =>
            if w_exists w main_file_path then
              match w_import w main_file_path with
              | NoSpec => None
              | ExecRaises _ | ExecReturns _ =>
                  os_create_error o main_file_path
              end
            else None
        end
    | Raised _ => None
    end
  else None.



(** [print] succeeds on every line. *)
Definition console_accepts : Prop := ∀ m, os_print_error o m = None.


(** The names [load_plugins] tests below the plugin root [dir]: those of
    lines 30 and 41 and the entries of the root. *)
Definition tested_names (dir : Path) : list string :=
  ["ILL"; "TTS"; "AntiPublic-Web"; "GitHub"] ++ w_iterdir (os_world o) dir.



(** The calls that [load_plugins], started in [s], makes outside the
    [try] block answer: the tests of the plugin root (line 25), of the
    names below it (lines 36, 42, 48) and of the manifest of each
    scheduled plugin (line 56), and the reading of the plugin root
    (line 47). *)
Definition outside_calls_answer (s : State) : Prop :=
  let w := os_world o in
  let dir := plugin_dir s in
  os_stat_error o dir = None
  ∧ (w_exists w dir = true → os_listdir_error o dir = None)
  ∧ (∀ n, n ∈ tested_names dir → os_stat_error o (dir // n) = None)
  ∧ (∀ p, p ∈ scheduled w s → os_stat_error o (p // "plugin.cfg") = None).

End PluginManagerOS.

Definition load_trace_os (o : OS) (a : app_obj) (s : State)
  : list (Path * State) :=
  attempt_trace_os o (scheduled (os_world o) s) (set_app a s).

(** An operating system over a disk: [stat] is refused on the paths
    [locked], a directory can be read and nothing else can, module
    creation fails as [unloadable] tells, the console takes every line. *)
Definition os_of (d : disk) (locked : list Path)
    (unloadable : list (Path * exn)) : OS :=
  {| os_world := world_of d;
     os_stat_error p :=
       if bool_decide (p ∈ locked) then Some "Permission denied" else None;
     os_listdir_error p :=
       match dict_get p d with
       | Some (DDir _) => None
       | Some (DFile _ _) => Some "Not a directory"
       | None => Some "No such file or directory"
       end;
     os_create_error p := dict_get p unloadable;
     os_print_error _ := None |}.

(** Three plugins and a stray file.  Native names an extension module
    that does not load; the entry file of Sealed lies in a directory that
    may not be searched; Zeta is in good order. *)
Definition hostile_disk : disk :=
  [ (["plugin"], DDir ["Native"; "README"; "Sealed"; "Zeta"]);
    (["plugin"; "README"], text_file "plugins live here");
    (["plugin"; "Native"], DDir ["plugin.cfg"; "native.so"]);
    (["plugin"; "Native"; "plugin.cfg"],
     text_file "plugin_main_file = native.so");
    (["plugin"; "Native"; "native.so"], DFile (Text "") (ExecReturns ∅));
    (["plugin"; "Sealed"], DDir ["plugin.cfg"; "private"]);
    (["plugin"; "Sealed"; "plugin.cfg"],
     text_file "plugin_main_file = private/main.py");
    (["plugin"; "Zeta"], DDir ["plugin.cfg"; "zeta.py"]);
    (["plugin"; "Zeta"; "plugin.cfg"], text_file "");
    (["plugin"; "Zeta"; "zeta.py"],
     source [("register_zeta_routes", add_route "/zeta")]) ].

Definition hostile_os : OS :=
  os_of hostile_disk
    [["plugin"; "Sealed"; "private/main.py"]]
    [(["plugin"; "Native"; "native.so"],
      PyException "ImportError"
        "dynamic module does not define module export function")].

(** ILL and Zeta are in good order; the directory of Vault can be listed
    and may not be searched, so that the test of its manifest is
    refused. *)
Definition vault_disk : disk :=
  [ (["plugin"], DDir ["Vault"; "ILL"; "Zeta"]);
    (["plugin"; "Vault"], DDir ["plugin.cfg"]);
    (["plugin"; "ILL"], DDir ["plugin.cfg"; "ill.py"]);
    (["plugin"; "ILL"; "plugin.cfg"], text_file "");
    (["plugin"; "ILL"; "ill.py"],
     source [("register_ill_routes", add_route "/ill")]);
    (["plugin"; "Zeta"], DDir ["plugin.cfg"; "zeta.py"]);
    (["plugin"; "Zeta"; "plugin.cfg"], text_file "");
    (["plugin"; "Zeta"; "zeta.py"],
     source [("register_zeta_routes", add_route "/zeta")]) ].

Definition vault_os : OS :=
  os_of vault_disk [["plugin"; "Vault"; "plugin.cfg"]] [].

(** The plugin root is a regular file. *)
Definition file_root_os : OS :=
  os_of [ (["plugin"], text_file "not a directory") ] [] [].

(** ** Facts about dictionaries *)

Section DictFacts.
Context {K V : Type} `{EqDecision K}.
Implicit Types (d : pydict K V) (k : K) (v : V).

Lemma dict_get_set d k k' v :
  dict_get k (dict_set k' v d)
  = if decide (k' = k) then Some v else dict_get k d.
Proof.
  induction d as [|[k0 v0] d IH]; simpl.
  - reflexivity.
  - destruct (decide (k0 = k')) as [->|Hne]; simpl.
    + destruct (decide (k' = k)); reflexivity.
    + rewrite IH. destruct (decide (k0 = k)) as [->|]; [|reflexivity].
      destruct (decide (k' = k)); [congruence|reflexivity].
Qed.

Lemma dict_get_set_eq d k v : dict_get k (dict_set k v d) = Some v.
Proof. rewrite dict_get_set. by destruct (decide (k = k)). Qed.

Lemma dict_get_set_ne d k k' v :
  k' ≠ k → dict_get k (dict_set k' v d) = dict_get k d.
Proof. intros. rewrite dict_get_set. by destruct (decide (k' = k)). Qed.

Lemma dict_get_None d k : dict_get k d = None ↔ k ∉ dict_keys d.
Proof.
  unfold dict_keys. induction d as [|[k0 v0] d IH]; simpl.
  - split; [intros _; apply not_elem_of_nil | done].
  - rewrite not_elem_of_cons. destruct (decide (k0 = k)) as [->|Hne].
    + split; [done | intros [? _]; done].
    + rewrite IH. split; [intros; split; [congruence|done] | intros [_ ?]; done].
Qed.

Lemma dict_get_is_Some d k : is_Some (dict_get k d) ↔ k ∈ dict_keys d.
Proof.
  rewrite <-not_eq_None_Some, dict_get_None.
  split; [apply dec_stable | auto].
Qed.

Lemma dict_keys_set d k v :
  dict_keys (dict_set k v d)
  = if bool_decide (k ∈ dict_keys d) then dict_keys d else dict_keys d ++ [k].
Proof.
  unfold dict_keys. induction d as [|[k0 v0] d IH].
  - case_bool_decide as Hin; [by apply elem_of_nil in Hin | done].
  - cbn [dict_set map fst]. destruct (decide (k0 = k)) as [->|Hne].
    + rewrite bool_decide_eq_true_2; [done | left].
    + cbn [map fst]. rewrite IH. case_bool_decide as Hin.
      * rewrite bool_decide_eq_true_2; [done | by right].
      * rewrite bool_decide_eq_false_2; [done|].
        rewrite elem_of_cons. intros [->|?]; done.
Qed.

Lemma dict_keys_set_NoDup d k v :
  NoDup (dict_keys d) → NoDup (dict_keys (dict_set k v d)).
Proof.
  intros Hnd. rewrite dict_keys_set. case_bool_decide as Hin; [done|].
  apply NoDup_app. split_and!; [done | | apply NoDup_singleton].
  intros x Hx ->%list_elem_of_singleton. done.
Qed.
End DictFacts.

(** ** Facts about strings *)

Lemma split_once c s :
  contains c s = true →
  split c s 1 = [ManifestSpec.before c s; ManifestSpec.after c s].
Proof.
  induction s as [|b r IH]; simpl; [done|].
  case_bool_decide as Hb; simpl.
  - intros _. by destruct r.
  - intros Hc. by rewrite (IH Hc).
Qed.

Lemma contains_nonempty c s : contains c s = true → s ≠ "".
Proof. by destruct s. Qed.

(** ** Manifest reader *)

Lemma parse_line_spec (d : pydict string string) (m : gmap string string) line :
  (∀ k, dict_get k d = m !! k) →
  ∃ d', parse_line d line = Returned d'
        ∧ (NoDup (dict_keys d) → NoDup (dict_keys d'))
        ∧ ∀ k, dict_get k d' = ManifestSpec.spec_line m line !! k.
Proof.
  intros Hdm. unfold parse_line, ManifestSpec.spec_line, ManifestSpec.skipped.
  destruct (contains "=" (strip line)) eqn:Hc;
    destruct (startswith "#" (strip line)) eqn:Hs;
    cbn [andb orb negb]; rewrite ?orb_true_r; cbn [andb orb negb];
    try by exists d.
  rewrite bool_decide_eq_false_2 by by apply contains_nonempty in Hc.
  rewrite (split_once _ _ Hc). eexists; split_and!; [done | | ].
  - apply dict_keys_set_NoDup.
  - intros k. cbn [orb]. by rewrite dict_get_set, lookup_insert, Hdm.
Qed.

Lemma parse_lines_spec lines :
  ∀ (d : pydict string string) (m : gmap string string),
    (∀ k, dict_get k d = m !! k) →
    ∃ d', parse_lines lines d = Returned d'
          ∧ (NoDup (dict_keys d) → NoDup (dict_keys d'))
          ∧ ∀ k, dict_get k d' = foldl ManifestSpec.spec_line m lines !! k.
Proof.
  induction lines as [|line lines IH]; intros d m Hdm; simpl.
  - by exists d.
  - destruct (parse_line_spec d m line Hdm) as (d1 & -> & Hnd1 & Hd1).
    destruct (IH d1 _ Hd1) as (d' & -> & Hnd' & Hd').
    exists d'. split_and!; auto.
Qed.

(** C4. Parsing a manifest never fails, whatever the file contains, and
    the dictionary it builds maps each key to what the mapping of the
    specification maps it to: lines are trimmed; empty lines, lines
    without '=' and lines beginning with '#' are skipped; the others are
    split at their first '=' into a trimmed key and a trimmed value, the
    last binding of a key winning. *)
Theorem parse_manifest_spec (text : string) :
  ∃ plugin_info,
    parse_manifest text = Returned plugin_info
    ∧ NoDup (dict_keys plugin_info)
    ∧ ∀ key, dict_get key plugin_info
             = ManifestSpec.spec_manifest text !! key.
Proof.
  destruct (parse_lines_spec (readlines text) [] ∅) as (d & Hd & Hnd & Hget).
  - intros k. by rewrite lookup_empty.
  - exists d. split_and!; [done | apply Hnd, NoDup_nil_2 | done].
Qed.

(** ** One load attempt, case by case *)

Ltac py_step :=
  cbv beta iota zeta delta
    [try_except_Exception mbind Py_bind mret Py_ret lift gets modify
     print raise module_from_spec exec_module call_with_app read_manifest
     negb].

Section Attempt.
Context (w : World) (p : Path).
Local Abbreviation pname := (path_name p).
Local Abbreviation cfg := (p // "plugin.cfg").

Lemma entry_file_name_get_default n (info : pydict string string) :
  dict_get_default "plugin_main_file" (lower n +:+ ".py") info
  = entry_file_name n info.
Proof. reflexivity. Qed.

Lemma attempt_no_config s :
  w_exists w cfg = false →
  _load_plugin w p s = (Returned tt, logged (msg_config_not_found pname) s).
Proof. intros H. unfold _load_plugin. cbv zeta. rewrite H. reflexivity. Qed.

Lemma attempt_unreadable s msg :
  w_exists w cfg = true → w_open w cfg = ReadError msg →
  _load_plugin w p s = (Returned tt, logged (msg_load_error pname msg) s).
Proof.
  intros H Ho. unfold _load_plugin. cbv zeta. rewrite H. py_step.
  rewrite Ho. reflexivity.
Qed.

Section Parsed.
Context (text : string) (info : pydict string string).
Context (Hcfg : w_exists w cfg = true) (Hopen : w_open w cfg = Text text)
        (Hparse : parse_manifest text = Returned info).
Local Abbreviation main_file := (entry_file_name pname info).
Local Abbreviation symbol := (register_function_name pname).

Lemma attempt_no_entry s :
  w_exists w (p // main_file) = false →
  _load_plugin w p s
  = (Returned tt, logged (msg_main_file_not_found pname main_file) s).
Proof.
  intros Hm. unfold _load_plugin. cbv zeta. rewrite Hcfg. py_step.
  rewrite Hopen, Hparse, entry_file_name_get_default.
  rewrite Hm. reflexivity.
Qed.

Context (Hmain : w_exists w (p // main_file) = true).

Lemma attempt_no_spec s :
  w_import w (p // main_file) = NoSpec →
  _load_plugin w p s
  = (Returned tt,
     logged (msg_load_error pname
               "'NoneType' object has no attribute 'loader'") s).
Proof.
  intros Hi. unfold _load_plugin. cbv zeta. rewrite Hcfg. py_step.
  rewrite Hopen, Hparse, entry_file_name_get_default.
  rewrite Hmain. py_step. rewrite Hi. reflexivity.
Qed.

Lemma attempt_exec_raises s e :
  w_import w (p // main_file) = ExecRaises e →
  _load_plugin w p s
  = if isinstance_Exception e
    then (Returned tt,
          logged (msg_load_error pname (exn_str e)) (with_search_path p s))
    else (Raised e, with_search_path p s).
Proof.
  intros Hi. unfold _load_plugin. cbv zeta. rewrite Hcfg. py_step.
  rewrite Hopen, Hparse, entry_file_name_get_default.
  rewrite Hmain. py_step. rewrite Hi. py_step. unfold with_search_path.
  case_bool_decide; destruct e; reflexivity.
Qed.

Context (m : py_module) (Himp : w_import w (p // main_file) = ExecReturns m).

Lemma attempt_symbol_absent s :
  m !! symbol = None →
  _load_plugin w p s
  = (Returned tt,
     recorded p info m
       (logged (msg_register_function_not_found pname symbol)
          (with_search_path p s))).
Proof.
  intros Hs. unfold _load_plugin. cbv zeta. rewrite Hcfg. py_step.
  rewrite Hopen, Hparse, entry_file_name_get_default.
  rewrite Hmain. py_step. rewrite Himp. py_step.
  rewrite Hs. py_step.
  unfold with_search_path. case_bool_decide; reflexivity.
Qed.

Lemma attempt_not_callable s :
  m !! symbol = Some NotCallable →
  _load_plugin w p s
  = (Returned tt,
     logged (msg_load_error pname "object is not callable")
       (with_search_path p s)).
Proof.
  intros Hs. unfold _load_plugin. cbv zeta. rewrite Hcfg. py_step.
  rewrite Hopen, Hparse, entry_file_name_get_default.
  rewrite Hmain. py_step. rewrite Himp. py_step.
  rewrite Hs. py_step.
  unfold with_search_path.
  case_bool_decide; case_bool_decide; reflexivity.
Qed.

Lemma attempt_callable s f :
  m !! symbol = Some (Callable f) →
  _load_plugin w p s
  = let s1 := set_app (f (app s)).1 (with_search_path p s) in
    match (f (app s)).2 with
    | None =>
        (Returned tt,
         recorded p info m (logged (msg_loaded_and_registered pname) s1))
    | Some e =>
        if isinstance_Exception e
        then (Returned tt, logged (msg_load_error pname (exn_str e)) s1)
        else (Raised e, s1)
    end.
Proof.
  intros Hs. unfold _load_plugin. cbv zeta. rewrite Hcfg. py_step.
  rewrite Hopen, Hparse, entry_file_name_get_default.
  rewrite Hmain. py_step. rewrite Himp. py_step.
  rewrite Hs. py_step.
  unfold with_search_path.
  case_bool_decide; case_bool_decide; py_step;
    change (app (set_sys_path _ s)) with (app s);
    destruct (f (app s)) as [a [e|]]; cbn [fst snd];
    try destruct e; reflexivity.
Qed.
End Parsed.
End Attempt.

Lemma parse_manifest_total text : ∃ info, parse_manifest text = Returned info.
Proof.
  destruct (parse_lines_spec (readlines text) [] ∅) as (d & Hd & _).
  - intros k. by rewrite lookup_empty.
  - by exists d.
Qed.

(** Splits a goal about [_load_plugin w p s] into the nine ways an attempt
    can go, rewriting the attempt to its result in each. *)
Ltac attempt_cases w p s :=
  let Hcfg := fresh "Hcfg" in
  let Hopen := fresh "Hopen" in
  let Hparse := fresh "Hparse" in
  let Hmain := fresh "Hmain" in
  let Himp := fresh "Himp" in
  let Hsym := fresh "Hsym" in
  let text := fresh "text" in
  let info := fresh "info" in
  let m := fresh "m" in
  let f := fresh "f" in
  destruct (w_exists w (p // "plugin.cfg")) eqn:Hcfg;
  [ destruct (w_open w (p // "plugin.cfg")) as [text|?] eqn:Hopen;
    [ destruct (parse_manifest_total text) as [info Hparse];
      destruct (w_exists w (p // entry_file_name (path_name p) info)) eqn:Hmain;
      [ destruct (w_import w (p // entry_file_name (path_name p) info))
          as [|?|m] eqn:Himp;
        [ rewrite (attempt_no_spec w p text info Hcfg Hopen Hparse Hmain s Himp)
        | rewrite (attempt_exec_raises w p text info Hcfg Hopen Hparse Hmain
                     s _ Himp)
        | destruct (m !! register_function_name (path_name p))
            as [[f|]|] eqn:Hsym;
          [ rewrite (attempt_callable w p text info Hcfg Hopen Hparse Hmain
                       m Himp s f Hsym)
          | rewrite (attempt_not_callable w p text info Hcfg Hopen Hparse
                       Hmain m Himp s Hsym)
          | rewrite (attempt_symbol_absent w p text info Hcfg Hopen Hparse
                       Hmain m Himp s Hsym) ] ]
      | rewrite (attempt_no_entry w p text info Hcfg Hopen Hparse s Hmain) ]
    | rewrite (attempt_unreadable w p s _ Hcfg Hopen) ]
  | rewrite (attempt_no_config w p s Hcfg) ].

Lemma with_search_path_frame p s :
  plugins (with_search_path p s) = plugins s
  ∧ app (with_search_path p s) = app s
  ∧ stdout (with_search_path p s) = stdout s
  ∧ plugin_dir (with_search_path p s) = plugin_dir s.
Proof. unfold with_search_path. by case_bool_decide. Qed.

Lemma plugins_with_search_path p s :
  plugins (with_search_path p s) = plugins s.
Proof. apply with_search_path_frame. Qed.
Lemma app_with_search_path p s : app (with_search_path p s) = app s.
Proof. apply with_search_path_frame. Qed.
Lemma stdout_with_search_path p s : stdout (with_search_path p s) = stdout s.
Proof. apply with_search_path_frame. Qed.
Lemma plugin_dir_with_search_path p s :
  plugin_dir (with_search_path p s) = plugin_dir s.
Proof. apply with_search_path_frame. Qed.

Ltac state_simpl :=
  repeat first
    [ progress cbn [fst snd plugins app sys_path stdout plugin_dir logged
                    recorded set_plugins set_app set_sys_path set_stdout]
    | rewrite plugins_with_search_path
    | rewrite app_with_search_path
    | rewrite stdout_with_search_path
    | rewrite plugin_dir_with_search_path ].

Section AttemptFacts.
Context (w : World).
Implicit Types (p : Path) (s : State).


Lemma attempt_plugin_dir p s :
  plugin_dir (_load_plugin w p s).2 = plugin_dir s.
Proof.
  attempt_cases w p s; try reflexivity;
    unfold with_search_path; cbv zeta;
    repeat first [case_bool_decide | case_match]; reflexivity.
Qed.

(** Lines 87-89: the plugin's directory enters the search path only
    when it is not there yet, and nothing else changes the path. *)
Lemma attempt_sys_path p s :
  let s' := (_load_plugin w p s).2 in
  sys_path s' = sys_path s
  ∨ ((path_str p ∉ sys_path s) ∧ sys_path s' = path_str p :: sys_path s).
Proof.
  cbv zeta. attempt_cases w p s; try (left; reflexivity);
    unfold with_search_path; cbv zeta;
    (case_bool_decide as Hin; [right|left]);
    repeat case_match; try split; done.
Qed.

(** Every attempt that returns has printed one line, about its plugin. *)
Lemma attempt_stdout p s s' :
  _load_plugin w p s = (Returned tt, s') →
  ∃ msg, stdout s' = stdout s ++ [msg] ∧ message_plugin msg = path_name p.
Proof.
  attempt_cases w p s; cbv zeta; repeat case_match; intros [= <-];
    unfold with_search_path; try case_bool_decide;
    eexists; split; reflexivity.
Qed.
End AttemptFacts.

(** ** Completed loads and the registry *)

Section Registry.
Context (w : World).
Implicit Types (p : Path) (s : State).

(** Once the manifest is known, a completed load is pinned down by it. *)
Lemma completes_inv p a manifest m text info :
  w_open w (p // "plugin.cfg") = Text text →
  parse_manifest text = Returned info →
  completes w p a manifest m →
  manifest = info
  ∧ w_exists w (p // entry_file_name (path_name p) info) = true
  ∧ w_import w (p // entry_file_name (path_name p) info) = ExecReturns m
  ∧ match m !! register_function_name (path_name p) with
    | None => True
    | Some (Callable f) => (f a).2 = None
    | Some NotCallable => False
    end.
Proof.
  intros Hopen Hparse [_ (t & Ht & Hp) Hfound Hexec Hreg].
  rewrite Hopen in Ht. injection Ht as <-.
  rewrite Hparse in Hp. injection Hp as <-. done.
Qed.

Lemma completes_functional p a a' manifest manifest' m m' :
  completes w p a manifest m → completes w p a' manifest' m' →
  manifest' = manifest ∧ m' = m.
Proof.
  intros [_ (t & Ht & Hp) _ Hexec _] H'.
  destruct (completes_inv _ _ _ _ _ _ Ht Hp H') as (-> & _ & Hexec' & _).
  rewrite Hexec in Hexec'. by injection Hexec' as <-.
Qed.

(** One attempt either completes and stores the plugin's full record,
    or does not complete and leaves the registry as it was. *)
Lemma attempt_registry p s :
  (∃ manifest m,
      completes w p (app s) manifest m
      ∧ (_load_plugin w p s).1 = Returned tt
      ∧ plugins (_load_plugin w p s).2
        = dict_set (path_name p) (plugin_record manifest m p) (plugins s))
  ∨ ((∀ manifest m, ¬ completes w p (app s) manifest m)
     ∧ plugins (_load_plugin w p s).2 = plugins s).
Proof.
  attempt_cases w p s.
  - right. split; [|reflexivity]. intros ?? H.
    apply (completes_inv _ _ _ _ _ _ Hopen Hparse) in H as (_ & _ & ? & _).
    congruence.
  - right. split; [|by destruct (isinstance_Exception e); state_simpl].
    intros ?? H.
    apply (completes_inv _ _ _ _ _ _ Hopen Hparse) in H as (_ & _ & ? & _).
    congruence.
  - cbv zeta. destruct ((f (app s)).2) as [e|] eqn:Hf.
    + right. split; [|by destruct (isinstance_Exception e); state_simpl].
      intros ?? H.
      apply (completes_inv _ _ _ _ _ _ Hopen Hparse) in H
        as (_ & _ & Hi & Hr).
      rewrite Himp in Hi. injection Hi as <-. rewrite Hsym in Hr.
      congruence.
    + left. exists info, m. split_and!; [|reflexivity|by state_simpl].
      split; [done | by exists text | done | done |].
      by rewrite Hsym.
  - right. split; [|by state_simpl]. intros ?? H.
    apply (completes_inv _ _ _ _ _ _ Hopen Hparse) in H
      as (_ & _ & Hi & Hr).
    rewrite Himp in Hi. injection Hi as <-. by rewrite Hsym in Hr.
  - left. exists info, m. split_and!; [|reflexivity|by state_simpl].
    split; [done | by exists text | done | done |].
    by rewrite Hsym.
  - right. split; [|reflexivity]. intros ?? H.
    apply (completes_inv _ _ _ _ _ _ Hopen Hparse) in H as (_ & ? & _).
    congruence.
  - right. split; [|reflexivity].
    intros ?? [_ (t & Ht & _) _ _ _]. congruence.
  - right. split; [|reflexivity]. intros ?? [? _ _ _ _]. congruence.
Qed.
End Registry.

(** ** Runs of attempts *)

Section RunFacts.
Context (w : World).
Implicit Types (p : Path) (ps : list Path) (s : State).

Lemma attempt_all_cons p ps s :
  attempt_all w (p :: ps) s
  = match _load_plugin w p s with
    | (Returned _, s') => attempt_all w ps s'
    | (Raised e, s') => (Raised e, s')
    end.
Proof. reflexivity. Qed.

Lemma attempt_all_app ps1 ps2 s :
  attempt_all w (ps1 ++ ps2) s
  = match attempt_all w ps1 s with
    | (Returned _, s') => attempt_all w ps2 s'
    | (Raised e, s') => (Raised e, s')
    end.
Proof.
  revert s. induction ps1 as [|p ps1 IH]; intros s; [reflexivity|].
  rewrite <-app_comm_cons, !attempt_all_cons.
  destruct (_load_plugin w p s) as [[[]|e] s1]; [apply IH | reflexivity].
Qed.

(** A run that returns has attempted every path it was given. *)
Lemma attempt_trace_complete ps s s' :
  attempt_all w ps s = (Returned tt, s') →
  (attempt_trace w ps s).*1 = ps.
Proof.
  revert s. induction ps as [|p ps IH]; intros s; [reflexivity|].
  rewrite attempt_all_cons. cbn [attempt_trace fmap list_fmap fst].
  destruct (_load_plugin w p s) as [[[]|e1] s1]; [|discriminate].
  intros H. f_equal. by apply IH.
Qed.

(** In any case the attempts made are an initial part of the paths. *)
Lemma attempt_trace_prefix ps s : (attempt_trace w ps s).*1 `prefix_of` ps.
Proof.
  revert s. induction ps as [|p ps IH]; intros s; [done|].
  cbn [attempt_trace fmap list_fmap fst].
  apply prefix_cons.
  destruct (_load_plugin w p s) as [[[]|e1] s1];
    [apply IH | apply prefix_nil].
Qed.

(** One line per attempt, in order. *)
Lemma attempt_all_stdout ps s s' :
  attempt_all w ps s = (Returned tt, s') →
  ∃ lines, stdout s' = stdout s ++ lines
           ∧ message_plugin <$> lines = path_name <$> ps.
Proof.
  revert s. induction ps as [|p ps IH]; intros s.
  - intros [= <-]. exists []. by rewrite app_nil_r.
  - rewrite attempt_all_cons.
    destruct (_load_plugin w p s) as [[[]|e1] s1] eqn:Hp; [|discriminate].
    intros Hrest. destruct (attempt_stdout w p s s1 Hp) as (msg & Hs1 & Hmsg).
    destruct (IH s1 Hrest) as (lines & Hs' & Hlines).
    exists (msg :: lines). split.
    + by rewrite Hs', Hs1, <-app_assoc.
    + cbn [fmap list_fmap]. by f_equal.
Qed.

Lemma attempt_all_plugin_dir ps s :
  plugin_dir (attempt_all w ps s).2 = plugin_dir s.
Proof.
  revert s. induction ps as [|p ps IH]; intros s; [reflexivity|].
  rewrite attempt_all_cons. pose proof (attempt_plugin_dir w p s) as Hp.
  destruct (_load_plugin w p s) as [[[]|e1] s1]; cbn [snd] in *.
  - by rewrite IH.
  - done.
Qed.
End RunFacts.

Section RunRegistry.
Context (w : World).
Implicit Types (p : Path) (ps : list Path) (s : State) (name : string).

Lemma attempt_keeps_entries p s name :
  is_Some (dict_get name (plugins s)) →
  is_Some (dict_get name (plugins (_load_plugin w p s).2)).
Proof.
  intros Hs.
  destruct (attempt_registry w p s) as [(mf & m & _ & _ & ->)|[_ ->]];
    [|done].
  rewrite dict_get_set. by case_decide.
Qed.

Lemma run_keeps_entries ps s name :
  is_Some (dict_get name (plugins s)) →
  is_Some (dict_get name (plugins (attempt_all w ps s).2)).
Proof.
  revert s. induction ps as [|p ps IH]; intros s Hs; [done|].
  rewrite attempt_all_cons. pose proof (attempt_keeps_entries p s name Hs).
  destruct (_load_plugin w p s) as [[[]|e] s1]; [by apply IH | done].
Qed.

(** Every record in the registry after a run was there before, or is
    the full record of an attempt of the run that completed. *)
Lemma run_registry_sound ps s name rec :
  dict_get name (plugins (attempt_all w ps s).2) = Some rec →
  dict_get name (plugins s) = Some rec
  ∨ ∃ p s1 manifest m,
      (p, s1) ∈ attempt_trace w ps s ∧ path_name p = name
      ∧ completes w p (app s1) manifest m
      ∧ rec = plugin_record manifest m p.
Proof.
  revert s. induction ps as [|p ps IH]; intros s; [by left|].
  rewrite attempt_all_cons. cbn [attempt_trace].
  pose proof (attempt_registry w p s) as Hreg.
  destruct (_load_plugin w p s) as [[[]|e] s1]; cbn [fst snd] in Hreg.
  - intros [Hs1|(p' & s' & mf & m & Hin & ?)]%IH.
    + destruct Hreg as [(mf & m & Hc & _ & Hpl)|[_ Hpl]];
        rewrite Hpl in Hs1; [|by left].
      rewrite dict_get_set in Hs1. case_decide as Hname; [|by left].
      injection Hs1 as <-. right. exists p, s, mf, m.
      split_and!; [left | done | done | done].
    + right. exists p', s', mf, m. split; [by right | done].
  - cbn [snd]. destruct Hreg as [(? & ? & _ & [=] & _)|[_ ->]]. by left.
Qed.

(** Every attempt of a run that completes leaves its plugin in the
    registry. *)
Lemma run_registry_complete ps s p s1 manifest m :
  (p, s1) ∈ attempt_trace w ps s →
  completes w p (app s1) manifest m →
  is_Some (dict_get (path_name p) (plugins (attempt_all w ps s).2)).
Proof.
  revert s. induction ps as [|p0 ps IH]; intros s;
    [by intros ?%elem_of_nil|].
  rewrite attempt_all_cons. cbn [attempt_trace].
  intros [[= -> ->]|Hin]%elem_of_cons Hc.
  - destruct (attempt_registry w p0 s) as [(mf & m' & _ & Hr & Hpl)|[Hno _]];
      [|by destruct (Hno _ _ Hc)].
    destruct (_load_plugin w p0 s) as [[[]|e] s2]; cbn [fst snd] in *;
      [|discriminate].
    apply run_keeps_entries. rewrite Hpl, dict_get_set_eq. by eexists.
  - destruct (_load_plugin w p0 s) as [[[]|e] s2];
      [by eapply IH | by apply elem_of_nil in Hin].
Qed.
End RunRegistry.

(** ** The module search path *)

Section SearchPath.
Context (w : World).
Implicit Types (p : Path) (ps : list Path) (s : State) (x : string).

Lemma occurrences_cons x y path :
  occurrences x (y :: path)
  = (if bool_decide (y = x) then 1 else 0) + occurrences x path.
Proof. unfold occurrences. cbn [List.filter]. by case_bool_decide. Qed.

Lemma occurrences_absent x path : x ∉ path → occurrences x path = 0.
Proof.
  induction path as [|y path IH]; [done|].
  rewrite not_elem_of_cons, occurrences_cons. intros [Hne Hnin].
  rewrite bool_decide_eq_false_2 by done. by rewrite IH.
Qed.

Lemma attempt_occurrences p s x :
  occurrences x (sys_path (_load_plugin w p s).2)
  ≤ Nat.max 1 (occurrences x (sys_path s)).
Proof.
  destruct (attempt_sys_path w p s) as [->|[Hnin ->]]; [lia|].
  rewrite occurrences_cons. case_bool_decide as Hx; [|lia].
  subst x. rewrite (occurrences_absent _ _ Hnin). lia.
Qed.

Lemma run_occurrences ps s x :
  occurrences x (sys_path (attempt_all w ps s).2)
  ≤ Nat.max 1 (occurrences x (sys_path s)).
Proof.
  revert s. induction ps as [|p ps IH]; intros s; [cbn; lia|].
  rewrite attempt_all_cons. pose proof (attempt_occurrences p s x) as Hp.
  destruct (_load_plugin w p s) as [[[]|e] s1]; cbn [snd] in *; [|done].
  specialize (IH s1). lia.
Qed.
End SearchPath.

(** ** The discovery loops *)

Lemma path_name_joinpath dir n : path_name (dir // n) = n.
Proof. unfold path_name, joinpath. apply last_last. Qed.

Lemma joinpath_inj dir n n' : dir // n = dir // n' → n = n'.
Proof. unfold joinpath. intros H%app_inv_head. by injection H. Qed.

Section Discovery.
Context (w : World) (dir : Path).
Import LoadOrderSpec.


Lemma filter_joinpath names :
  List.filter (directory_exists w) (map (joinpath dir) names)
  = map (joinpath dir) (present w dir names).
Proof.
  induction names as [|n names IH]; [reflexivity|].
  cbn [map List.filter present]. fold (present w dir names).
  destruct (directory_exists w (dir // n)); cbn [map]; by rewrite IH.
Qed.

Lemma load_in_order_spec names loaded s :
  load_in_order w dir names loaded s
  = match attempt_all w (map (joinpath dir) (present w dir names)) s with
    | (Returned _, s') => (Returned (list_to_set (present w dir names) ∪ loaded), s')
    | (Raised e, s') => (Raised e, s')
    end.
Proof.
  revert loaded s. induction names as [|n names IH]; intros loaded s.
  - unfold present. cbn [load_in_order List.filter map attempt_all list_to_set].
    unfold mret, Py_ret. f_equal. f_equal. set_solver.
  - cbn [load_in_order present List.filter]. fold (present w dir names).
    fold (directory_exists w (dir // n)).
    destruct (directory_exists w (dir // n)).
    + cbn [map]. rewrite attempt_all_cons.
      change ((_load_plugin w (dir // n);;
               load_in_order w dir names ({[n]} ∪ loaded)) s)
        with (match _load_plugin w (dir // n) s with
              | (Returned _, s') =>
                  load_in_order w dir names ({[n]} ∪ loaded) s'
              | (Raised e, s') => (Raised e, s')
              end).
      destruct (_load_plugin w (dir // n) s) as [[[]|e] s1]; [|reflexivity].
      rewrite IH.
      destruct (attempt_all w _ s1) as [[[]|e] s2]; [|reflexivity].
      f_equal. f_equal. cbn [list_to_set]. set_solver.
    + apply IH.
Qed.

Lemma load_remaining_spec entries loaded s :
  load_remaining w entries loaded s
  = attempt_all w
      (List.filter
         (λ p, w_is_dir w p && bool_decide (path_name p ∉ loaded)) entries)
      s.
Proof.
  revert s. induction entries as [|p entries IH]; intros s; [reflexivity|].
  cbn [load_remaining List.filter].
  destruct (w_is_dir w p && bool_decide (path_name p ∉ loaded)).
  - rewrite attempt_all_cons.
    change ((_load_plugin w p;; load_remaining w entries loaded) s)
      with (match _load_plugin w p s with
            | (Returned _, s') => load_remaining w entries loaded s'
            | (Raised e, s') => (Raised e, s')
            end).
    destruct (_load_plugin w p s) as [[[]|e] s1]; [apply IH | reflexivity].
  - apply IH.
Qed.

Lemma phase1_present : phase1 w dir = map (joinpath dir) (present w dir priority_list).
Proof. apply filter_joinpath. Qed.

Lemma phase2_present : phase2 w dir = map (joinpath dir) (present w dir [catch_all]).
Proof. apply (filter_joinpath [catch_all]). Qed.

(** An enumerated entry is among the loaded names exactly when its path
    was attempted in the first two phases. *)
Lemma phase3_filter :
  phase3 w dir
  = List.filter
      (λ p, w_is_dir w p
            && bool_decide
                 (path_name p ∉
                  (list_to_set (present w dir [catch_all])
                   ∪ (list_to_set (present w dir priority_list) ∪ ∅) : gset string)))
      (iterdir w dir).
Proof.
  unfold phase3. apply filter_ext_in. intros p Hp.
  apply in_map_iff in Hp as (n & <- & _). f_equal.
  rewrite path_name_joinpath, phase1_present, phase2_present.
  apply bool_decide_ext. rewrite <-fmap_app.
  split; intros Hn Hin; apply Hn; clear Hn.
  - apply list_elem_of_fmap. exists n. split; [done|]. set_solver.
  - apply list_elem_of_fmap in Hin as (n' & ->%joinpath_inj & Hin).
    set_solver.
Qed.
End Discovery.

(** ** [load_plugins] as a run of attempts *)

Lemma load_plugins_run w a s :
  load_plugins w a s
  = if w_exists w (plugin_dir s)
    then attempt_all w (LoadOrderSpec.attempt_order w (plugin_dir s))
           (set_app a s)
    else (Returned tt,
          logged (msg_plugin_dir_not_found (path_str (plugin_dir s)))
            (set_app a s)).
Proof.
  unfold load_plugins. py_step. cbn [plugin_dir set_app].
  destruct (w_exists w (plugin_dir s)); [|reflexivity].
  rewrite load_in_order_spec.
  unfold LoadOrderSpec.attempt_order.
  rewrite attempt_all_app, phase1_present.
  fold LoadOrderSpec.priority_list.
  destruct (attempt_all w _ (set_app a s)) as [[[]|e] s1]; [|reflexivity].
  rewrite attempt_all_app, phase3_filter, phase2_present.
  change (LoadOrderSpec.present w (plugin_dir s) [LoadOrderSpec.catch_all])
    with (if LoadOrderSpec.directory_exists w (plugin_dir s // "GitHub")
          then ["GitHub"] else []).
  fold (LoadOrderSpec.directory_exists w (plugin_dir s // "GitHub")).
  destruct (LoadOrderSpec.directory_exists w _).
  - cbn [map]. rewrite attempt_all_cons.
    destruct (_load_plugin w (plugin_dir s // "GitHub") s1) as [[[]|e] s2];
      [|reflexivity].
    cbn [attempt_all]. py_step. rewrite load_remaining_spec.
    apply (f_equal (λ l, attempt_all w l s2)), filter_ext. intros p.
    apply (f_equal (andb _)), bool_decide_ext. cbn [list_to_set].
    set_solver.
  - cbn [map attempt_all]. py_step. rewrite load_remaining_spec.
    apply (f_equal (λ l, attempt_all w l s1)), filter_ext. intros p.
    apply (f_equal (andb _)), bool_decide_ext. cbn [list_to_set].
    set_solver.
Qed.

(** [load_plugins] against the run over [scheduled]: the same outcome and,
    the notice about a missing plugin root apart, the same state. *)
Lemma load_plugins_scheduled w a s :
  let run := attempt_all w (scheduled w s) (set_app a s) in
  (load_plugins w a s).1 = run.1
  ∧ plugins (load_plugins w a s).2 = plugins run.2
  ∧ app (load_plugins w a s).2 = app run.2
  ∧ sys_path (load_plugins w a s).2 = sys_path run.2.
Proof.
  cbv zeta. rewrite load_plugins_run. unfold scheduled.
  by destruct (w_exists w (plugin_dir s)).
Qed.

Lemma filter_Permutation_bool {A} (f : A → bool) (l l' : list A) :
  l ≡ₚ l' → List.filter f l ≡ₚ List.filter f l'.
Proof.
  induction 1 as [|x l l' _ IH|x y l|l l' l'' _ IH1 _ IH2]; cbn [List.filter].
  - done.
  - destruct (f x); by rewrite IH.
  - destruct (f x), (f y); try done. apply perm_swap.
  - by etrans.
Qed.

(** C1. [load_plugins] is the run of attempts over the order of the
    specification: the priority names ILL, TTS, AntiPublic-Web whose
    directory exists, in listed order; then GitHub if its directory exists;
    then the remaining subdirectories in enumeration order (and nothing
    but a notice when the plugin root does not exist).  The attempts made
    are an initial part of that order, and all of it when [load_plugins]
    returns.  In particular, with directories TTS, GitHub, X and ILL
    enumerated in any order and no AntiPublic-Web, the attempts are ILL,
    TTS, GitHub, X. *)
Theorem load_plugins_attempt_order :
  (∀ w a s,
      load_plugins w a s
      = if w_exists w (plugin_dir s)
        then attempt_all w (LoadOrderSpec.attempt_order w (plugin_dir s))
               (set_app a s)
        else (Returned tt,
              logged (msg_plugin_dir_not_found (path_str (plugin_dir s)))
                (set_app a s)))
  ∧ (∀ w a s,
        (load_trace w a s).*1 `prefix_of` scheduled w s
        ∧ ∀ s', load_plugins w a s = (Returned tt, s') →
                (load_trace w a s).*1 = scheduled w s)
  ∧ (∀ listing,
        listing ≡ₚ ["TTS"; "GitHub"; "X"; "ILL"] →
        let w := world_of (sample_root listing) in
        LoadOrderSpec.attempt_order w ["plugin"] = sample_order
        ∧ (load_trace w (FastAPI []) fresh).*1 = sample_order
        ∧ message_plugin <$> stdout (load_plugins w (FastAPI []) fresh).2
          = ["ILL"; "TTS"; "GitHub"; "X"]).
Proof.
  split; [apply load_plugins_run|]. split.
  { intros w a s. split; [apply attempt_trace_prefix|].
    intros s' Hrun.
    destruct (load_plugins_scheduled w a s) as (Hout & _).
    rewrite Hrun in Hout. cbn [fst] in Hout.
    destruct (attempt_all w (scheduled w s) (set_app a s)) as [r s2] eqn:Hall.
    cbn [fst] in Hout. subst r. by eapply attempt_trace_complete. }
  intros listing Hperm w.
  assert (LoadOrderSpec.attempt_order w ["plugin"] = sample_order) as Horder.
  { unfold LoadOrderSpec.attempt_order.
    change (LoadOrderSpec.phase1 w ["plugin"])
      with [["plugin"; "ILL"]; ["plugin"; "TTS"]].
    change (LoadOrderSpec.phase2 w ["plugin"]) with [["plugin"; "GitHub"]].
    unfold sample_order. cbn [List.app]. do 3 f_equal.
    apply Permutation_singleton_r. unfold LoadOrderSpec.phase3.
    change (LoadOrderSpec.phase1 w ["plugin"])
      with [["plugin"; "ILL"]; ["plugin"; "TTS"]].
    change (LoadOrderSpec.phase2 w ["plugin"]) with [["plugin"; "GitHub"]].
    change (iterdir w ["plugin"]) with (map (joinpath ["plugin"]) listing).
    rewrite (filter_Permutation_bool _ _ _ (Permutation_map _ Hperm)).
    vm_compute. done. }
  split; [exact Horder|].
  unfold load_trace, scheduled. rewrite load_plugins_run.
  change (w_exists w (plugin_dir fresh)) with true. cbv iota.
  change (plugin_dir fresh) with ["plugin"]. rewrite Horder.
  split; vm_compute; reflexivity.
Qed.

Lemma load_plugins_attempt_order_witness :
  ["TTS"; "GitHub"; "X"; "ILL"] ≡ₚ ["TTS"; "GitHub"; "X"; "ILL"]
  ∧ LoadOrderSpec.attempt_order sample_world ["plugin"] = sample_order
  ∧ (load_trace sample_world (FastAPI []) fresh).*1 = sample_order
  ∧ message_plugin <$> stdout (load_plugins sample_world (FastAPI []) fresh).2
    = ["ILL"; "TTS"; "GitHub"; "X"].
Proof.
  split; [reflexivity|].
  apply (proj2 (proj2 load_plugins_attempt_order)
           ["TTS"; "GitHub"; "X"; "ILL"]).
  reflexivity.
Defined.

Lemma scheduled_children w s p :
  p ∈ scheduled w s → p = plugin_dir s // path_name p.
Proof.
  unfold scheduled. destruct (w_exists w (plugin_dir s));
    [|by intros ?%elem_of_nil].
  assert (∀ l : list Path,
             p ∈ l → (∀ q, q ∈ l → ∃ n, q = plugin_dir s // n) →
               p = plugin_dir s // path_name p) as Hchild.
  { intros l Hin Hl. destruct (Hl _ Hin) as [n ->].
    by rewrite path_name_joinpath. }
  unfold LoadOrderSpec.attempt_order, LoadOrderSpec.phase1,
    LoadOrderSpec.phase2, LoadOrderSpec.phase3, iterdir.
  rewrite !elem_of_app, !list_elem_of_In, !filter_In, <-!list_elem_of_In.
  intros [[Hin _]|[[Hin _]|[Hin _]]]; apply (Hchild _ Hin); clear.
  - intros q (n & -> & _)%list_elem_of_fmap. by exists n.
  - intros q ->%list_elem_of_singleton. by eexists.
  - intros q (n & -> & _)%list_elem_of_fmap. by exists n.
Qed.

Lemma elem_of_attempt_trace w ps s p s1 :
  (p, s1) ∈ attempt_trace w ps s → p ∈ ps.
Proof.
  intros Hin. eapply elem_of_prefix; [|apply (attempt_trace_prefix w ps s)].
  apply list_elem_of_fmap. by exists (p, s1).
Qed.

(** What holds at the start of a run and is kept by every attempt holds
    at the start of each attempt of the run. *)
Lemma attempt_trace_invariant w (P : State → Prop) ps s :
  P s → (∀ p s0, P s0 → P (_load_plugin w p s0).2) →
  ∀ p s1, (p, s1) ∈ attempt_trace w ps s → P s1.
Proof.
  intros Hs Hstep. revert s Hs.
  induction ps as [|p0 ps IH]; intros s Hs p s1; cbn [attempt_trace];
    [by intros ?%elem_of_nil|].
  intros [[= -> ->]|Hin]%elem_of_cons; [done|].
  pose proof (Hstep p0 s Hs) as Hs'.
  destruct (_load_plugin w p0 s) as [[[]|e] s2];
    [by eapply IH | by apply elem_of_nil in Hin].
Qed.

(** Every record of the registry has the three keys of a full record. *)
Lemma attempt_keeps_records_full w p s :
  (∀ name rec, dict_get name (plugins s) = Some rec →
               ∃ manifest m q, rec = plugin_record manifest m q) →
  ∀ name rec, dict_get name (plugins (_load_plugin w p s).2) = Some rec →
              ∃ manifest m q, rec = plugin_record manifest m q.
Proof.
  intros Hs name rec.
  destruct (attempt_registry w p s) as [(mf & m & _ & _ & ->)|[_ ->]];
    [|apply Hs].
  rewrite dict_get_set. case_decide; [|apply Hs].
  intros [= <-]. by exists mf, m, p.
Qed.

(** C2. After [load_plugins] has returned on a manager whose registry was
    empty, as [__init__] leaves it: the attempts made are all the scheduled
    ones; a name is registered exactly when an attempt for it completed
    its full load sequence (manifest present and parsed, entry file found,
    module executed, registration call, when the symbol exists, returned);
    every record is the complete record of such an attempt, and at no
    moment of the run does the registry hold anything but complete
    records; and an attempt whose registration function raises leaves the
    registry as it was, although its module was loaded. *)
Theorem registry_holds_completed_loads w a s s' :
  plugins s = [] →
  load_plugins w a s = (Returned tt, s') →
  (load_trace w a s).*1 = scheduled w s
  ∧ (∀ name,
        name ∈ list_plugins s'
        ↔ ∃ p s1 manifest m,
            (p, s1) ∈ load_trace w a s ∧ path_name p = name
            ∧ completes w p (app s1) manifest m)
  ∧ (∀ name rec,
        dict_get name (plugins s') = Some rec →
        ∃ p s1 manifest m,
          (p, s1) ∈ load_trace w a s ∧ path_name p = name
          ∧ completes w p (app s1) manifest m
          ∧ rec = plugin_record manifest m p)
  ∧ (∀ p s1 name rec,
        (p, s1) ∈ load_trace w a s →
        dict_get name (plugins s1) = Some rec →
        ∃ manifest m q, rec = plugin_record manifest m q)
  ∧ (∀ p s1 text manifest m f e,
        w_exists w (p // "plugin.cfg") = true →
        w_open w (p // "plugin.cfg") = Text text →
        parse_manifest text = Returned manifest →
        w_exists w (p // entry_file_name (path_name p) manifest) = true →
        w_import w (p // entry_file_name (path_name p) manifest)
        = ExecReturns m →
        m !! register_function_name (path_name p) = Some (Callable f) →
        (f (app s1)).2 = Some e →
        plugins (_load_plugin w p s1).2 = plugins s1).
Proof.
  intros Hempty Hrun.
  destruct (load_plugins_scheduled w a s) as (Hout & Hpl & _).
  rewrite Hrun in Hout, Hpl. cbn [fst snd] in Hout, Hpl.
  unfold load_trace.
  destruct (attempt_all w (scheduled w s) (set_app a s)) as [r s2] eqn:Hall.
  cbn [fst snd] in Hout, Hpl. subst r.
  assert (∀ name rec,
            dict_get name (plugins s') = Some rec →
            ∃ p s1 manifest m,
              (p, s1) ∈ attempt_trace w (scheduled w s) (set_app a s)
              ∧ path_name p = name ∧ completes w p (app s1) manifest m
              ∧ rec = plugin_record manifest m p) as Hsound.
  { intros name rec Hget. rewrite Hpl in Hget.
    replace s2 with (attempt_all w (scheduled w s) (set_app a s)).2 in Hget
      by by rewrite Hall.
    apply run_registry_sound in Hget as [Hold|Hnew]; [|done].
    cbn [plugins set_app] in Hold. by rewrite Hempty in Hold. }
  split_and!.
  - by eapply attempt_trace_complete.
  - intros name. unfold list_plugins. rewrite <-dict_get_is_Some. split.
    + intros [rec (p & s1 & mf & m & ? & ? & ? & _)%Hsound].
      by exists p, s1, mf, m.
    + intros (p & s1 & mf & m & Hin & <- & Hc). rewrite Hpl.
      replace s2 with (attempt_all w (scheduled w s) (set_app a s)).2
        by by rewrite Hall.
      by eapply run_registry_complete.
  - exact Hsound.
  - intros p s1 name rec Hin.
    revert name rec. revert p s1 Hin.
    apply (attempt_trace_invariant w
             (λ s0, ∀ name rec, dict_get name (plugins s0) = Some rec →
                                ∃ manifest m q, rec = plugin_record manifest m q)).
    + cbn [plugins set_app]. rewrite Hempty. discriminate.
    + intros p s0. apply attempt_keeps_records_full.
  - intros p s1 text mf m f e Hcfg Hopen Hparse Hmain Himp Hsym Hf.
    rewrite (attempt_callable w p text mf Hcfg Hopen Hparse Hmain m Himp
               s1 f Hsym).
    cbv zeta. rewrite Hf. by destruct (isinstance_Exception e); state_simpl.
Qed.

Lemma registry_holds_completed_loads_witness :
  plugins fresh = []
  ∧ load_plugins sample_world (FastAPI []) fresh = (Returned tt, sample_final)
  ∧ (load_trace sample_world (FastAPI []) fresh).*1
    = scheduled sample_world fresh
  ∧ ("GitHub" ∈ list_plugins sample_final
     ↔ ∃ p s1 manifest m,
         (p, s1) ∈ load_trace sample_world (FastAPI []) fresh
         ∧ path_name p = "GitHub"
         ∧ completes sample_world p (app s1) manifest m).
Proof.
  assert (load_plugins sample_world (FastAPI []) fresh
          = (Returned tt, sample_final)) as Hrun by (vm_compute; reflexivity).
  split; [reflexivity|]. split; [exact Hrun|].
  destruct (registry_holds_completed_loads sample_world (FastAPI []) fresh
              sample_final eq_refl Hrun) as (Htrace & Hiff & _).
  split; [exact Htrace | exact (Hiff "GitHub")].
Defined.

(** ** The engine with the calls that can fail *)

Ltac os_step :=
  cbv beta iota zeta delta
    [try_except_Exception mbind Py_bind mret Py_ret lift gets modify
     print raise module_from_spec_os exec_module call_with_app read_manifest
     negb path_exists path_is_dir exists_and_is_dir path_iterdir print_os].

Section OSAttempt.
Context (o : OS).
Local Abbreviation w := (os_world o).
Implicit Types (p : Path) (s : State).

Lemma attempt_os_refused p s msg :
  os_stat_error o (p // "plugin.cfg") = Some msg →
  _load_plugin_os o p s = (Raised (PyException "OSError" msg), s).
Proof. intros H. unfold _load_plugin_os. os_step. by rewrite H. Qed.

Lemma attempt_os_spec p s :
  console_accepts o →
  os_stat_error o (p // "plugin.cfg") = None →
  _load_plugin_os o p s
  = match inside_error o p with
    | None => _load_plugin w p s
    | Some e =>
        if isinstance_Exception e
        then (Returned tt,
              logged (msg_load_error (path_name p) (exn_str e)) s)
        else (Raised e, s)
    end.
Proof.
  intros Hc Hcfg. unfold inside_error, read_manifest. cbv zeta.
  unfold _load_plugin_os. os_step. rewrite Hcfg. cbv beta iota.
  destruct (w_exists w (p // "plugin.cfg")) eqn:Hex.
  2: { rewrite attempt_no_config by done. by rewrite Hc. }
  destruct (w_open w (p // "plugin.cfg")) as [text|msg] eqn:Hopen.
  2: { by rewrite (attempt_unreadable w p s msg Hex Hopen), Hc. }
  destruct (parse_manifest_total text) as [info Hparse]. rewrite Hparse.
  rewrite entry_file_name_get_default.
  destruct (os_stat_error o (p // entry_file_name (path_name p) info))
    as [msg|] eqn:Hstat.
  { cbn [isinstance_Exception exn_str]. by rewrite Hc. }
  destruct (w_exists w (p // entry_file_name (path_name p) info)) eqn:Hmain.
  2: { rewrite (attempt_no_entry w p text info Hex Hopen Hparse s Hmain).
       by rewrite Hc. }
  destruct (w_import w (p // entry_file_name (path_name p) info))
    as [|e0|m] eqn:Himp.
  { rewrite (attempt_no_spec w p text info Hex Hopen Hparse Hmain s Himp).
    cbn [isinstance_Exception exn_str]. by rewrite Hc. }
  - destruct (os_create_error o _) as [e|] eqn:Hcreate.
    { destruct e; cbn [isinstance_Exception exn_str]; [by rewrite Hc|done]. }
    rewrite (attempt_exec_raises w p text info Hex Hopen Hparse Hmain s e0 Himp).
    unfold with_search_path.
    case_bool_decide; destruct e0; cbn [isinstance_Exception exn_str];
      by rewrite ?Hc.
  - destruct (os_create_error o _) as [e|] eqn:Hcreate.
    { destruct e; cbn [isinstance_Exception exn_str]; [by rewrite Hc|done]. }
    destruct (m !! register_function_name (path_name p)) as [[f|]|] eqn:Hsym.
    + rewrite (attempt_callable w p text info Hex Hopen Hparse Hmain m Himp
                 s f Hsym).
      unfold with_search_path.
      case_bool_decide; case_bool_decide; os_step;
        change (app (set_sys_path _ s)) with (app s);
        destruct (f (app s)) as [a [e|]]; cbn [fst snd];
        try destruct e; cbn [isinstance_Exception exn_str];
        by rewrite ?Hc.
    + rewrite (attempt_not_callable w p text info Hex Hopen Hparse Hmain m
                 Himp s Hsym).
      unfold with_search_path.
      case_bool_decide; case_bool_decide; cbn [isinstance_Exception exn_str];
        by rewrite ?Hc.
    + rewrite (attempt_symbol_absent w p text info Hex Hopen Hparse Hmain m
                 Himp s Hsym).
      unfold with_search_path. case_bool_decide; by rewrite ?Hc.
Qed.


Lemma inside_error_None p text info :
  w_exists w (p // "plugin.cfg") = true →
  w_open w (p // "plugin.cfg") = Text text →
  parse_manifest text = Returned info →
  w_exists w (p // entry_file_name (path_name p) info) = true →
  w_import w (p // entry_file_name (path_name p) info) ≠ NoSpec →
  inside_error o p = None
  ↔ os_stat_error o (p // entry_file_name (path_name p) info) = None
    ∧ os_create_error o (p // entry_file_name (path_name p) info) = None.
Proof.
  intros Hex Hopen Hparse Hmain Himp.
  unfold inside_error, read_manifest. cbv zeta.
  rewrite Hex, Hopen, Hparse.
  destruct (os_stat_error o _) as [msg|]; [by split; [|intros []]|].
  rewrite Hmain. destruct (w_import w _); [done|..]; by split; [|intros []].
Qed.

(** Where the operating system answers, an attempt is the attempt of
    [_load_plugin]. *)
Lemma attempt_os_answering p s :
  console_accepts o →
  os_stat_error o (p // "plugin.cfg") = None →
  inside_error o p = None →
  _load_plugin_os o p s = _load_plugin w p s.
Proof. intros Hc Hcfg Hin. by rewrite attempt_os_spec, Hin. Qed.





End OSAttempt.

Section OSRun.
Context (o : OS).
Local Abbreviation w := (os_world o).
Implicit Types (p : Path) (ps : list Path) (s : State) (name : string).
Import LoadOrderSpec.

Lemma attempt_all_os_cons p ps s :
  attempt_all_os o (p :: ps) s
  = match _load_plugin_os o p s with
    | (Returned _, s') => attempt_all_os o ps s'
    | (Raised e, s') => (Raised e, s')
    end.
Proof. reflexivity. Qed.

Lemma attempt_all_os_app ps1 ps2 s :
  attempt_all_os o (ps1 ++ ps2) s
  = match attempt_all_os o ps1 s with
    | (Returned _, s') => attempt_all_os o ps2 s'
    | (Raised e, s') => (Raised e, s')
    end.
Proof.
  revert s. induction ps1 as [|p ps1 IH]; intros s; [reflexivity|].
  rewrite <-app_comm_cons, !attempt_all_os_cons.
  destruct (_load_plugin_os o p s) as [[[]|e] s1]; [apply IH | reflexivity].
Qed.



Lemma attempt_trace_os_prefix ps s :
  (attempt_trace_os o ps s).*1 `prefix_of` ps.
Proof.
  revert s. induction ps as [|p ps IH]; intros s; [done|].
  cbn [attempt_trace_os fmap list_fmap fst].
  apply prefix_cons.
  destruct (_load_plugin_os o p s) as [[[]|e1] s1];
    [apply IH | apply prefix_nil].
Qed.





(** *** The discovery loops *)

Lemma exists_and_is_dir_answers p s :
  os_stat_error o p = None →
  exists_and_is_dir o p s = (Returned (directory_exists w p), s).
Proof.
  intros H. unfold directory_exists. os_step. rewrite H. cbv beta iota.
  destruct (w_exists w p); reflexivity.
Qed.

Lemma load_in_order_os_spec dir names loaded s :
  (∀ n, n ∈ names → os_stat_error o (dir // n) = None) →
  load_in_order_os o dir names loaded s
  = match attempt_all_os o (map (joinpath dir) (present w dir names)) s with
    | (Returned _, s') =>
        (Returned (list_to_set (present w dir names) ∪ loaded), s')
    | (Raised e, s') => (Raised e, s')
    end.
Proof.
  revert loaded s. induction names as [|n names IH]; intros loaded s Hstat.
  - unfold present.
    cbn [load_in_order_os List.filter map attempt_all_os list_to_set].
    unfold mret, Py_ret. f_equal. f_equal. set_solver.
  - cbn [load_in_order_os present List.filter]. fold (present w dir names).
    unfold mbind at 1. unfold Py_bind at 1.
    rewrite exists_and_is_dir_answers by (apply Hstat; left).
    assert (∀ n', n' ∈ names → os_stat_error o (dir // n') = None) as Hrest
      by (intros n' Hn'; apply Hstat; by right).
    destruct (directory_exists w (dir // n)).
    + cbn [map]. rewrite attempt_all_os_cons.
      unfold mbind at 1. unfold Py_bind at 1.
      destruct (_load_plugin_os o (dir // n) s) as [[[]|e] s1]; [|reflexivity].
      rewrite IH by done.
      destruct (attempt_all_os o _ s1) as [[[]|e] s2]; [|reflexivity].
      f_equal. f_equal. cbn [list_to_set]. set_solver.
    + by apply IH.
Qed.

Lemma load_remaining_os_spec entries loaded s :
  (∀ p, p ∈ entries → os_stat_error o p = None) →
  load_remaining_os o entries loaded s
  = attempt_all_os o
      (List.filter
         (λ p, w_is_dir w p && bool_decide (path_name p ∉ loaded)) entries)
      s.
Proof.
  revert s. induction entries as [|p entries IH]; intros s Hstat;
    [reflexivity|].
  assert (∀ q, q ∈ entries → os_stat_error o q = None) as Hrest
    by (intros q Hq; apply Hstat; by right).
  cbn [load_remaining_os List.filter].
  unfold mbind at 1. unfold Py_bind at 1. unfold path_is_dir.
  rewrite (Hstat p) by left. unfold mret at 1. unfold Py_ret at 1.
  unfold mbind at 1. unfold Py_bind at 1.
  destruct (w_is_dir w p && bool_decide (path_name p ∉ loaded)).
  - rewrite attempt_all_os_cons.
    destruct (_load_plugin_os o p s) as [[[]|e] s1];
      [by apply IH | reflexivity].
  - by apply IH.
Qed.

Lemma load_plugins_os_missing_root a s :
  console_accepts o →
  os_stat_error o (plugin_dir s) = None →
  w_exists w (plugin_dir s) = false →
  load_plugins_os o a s
  = (Returned tt,
     logged (msg_plugin_dir_not_found (path_str (plugin_dir s)))
       (set_app a s)).
Proof.
  intros Hc Hstat Hroot. unfold load_plugins_os. os_step.
  cbn [plugin_dir set_app]. by rewrite Hstat, Hroot, Hc.
Qed.

Lemma load_plugins_os_run a s :
  os_stat_error o (plugin_dir s) = None →
  w_exists w (plugin_dir s) = true →
  os_listdir_error o (plugin_dir s) = None →
  (∀ n, n ∈ tested_names o (plugin_dir s) →
        os_stat_error o (plugin_dir s // n) = None) →
  load_plugins_os o a s
  = attempt_all_os o (attempt_order w (plugin_dir s)) (set_app a s).
Proof.
  intros Hstat Hroot Hlist Hnames. unfold load_plugins_os.
  unfold mbind at 1. unfold Py_bind at 1. unfold modify at 1.
  unfold mbind at 1. unfold Py_bind at 1. unfold gets at 1.
  cbn [plugin_dir set_app].
  unfold mbind at 1. unfold Py_bind at 1. unfold path_exists at 1.
  rewrite Hstat. unfold mret at 1. unfold Py_ret at 1.
  rewrite Hroot. cbn [negb].
  unfold mbind at 1. unfold Py_bind at 1.
  rewrite load_in_order_os_spec
    by (intros n Hn; apply Hnames; unfold tested_names; set_solver).
  unfold attempt_order.
  rewrite attempt_all_os_app, phase1_present.
  fold priority_list.
  destruct (attempt_all_os o _ (set_app a s)) as [[[]|e] s1]; [|reflexivity].
  rewrite attempt_all_os_app, phase3_filter, phase2_present.
  change (present w (plugin_dir s) [catch_all])
    with (if directory_exists w (plugin_dir s // "GitHub")
          then ["GitHub"] else []).
  unfold mbind at 1. unfold Py_bind at 1.
  rewrite exists_and_is_dir_answers
    by (apply Hnames; unfold tested_names; set_solver).
  assert (∀ p, p ∈ iterdir w (plugin_dir s) → os_stat_error o p = None)
    as Hentries.
  { intros p (n & -> & Hn)%list_elem_of_fmap. apply Hnames.
    unfold tested_names. set_solver. }
  destruct (directory_exists w _).
  - cbn [map]. rewrite attempt_all_os_cons.
    unfold mbind at 1. unfold Py_bind at 1.
    unfold mbind at 1. unfold Py_bind at 1.
    destruct (_load_plugin_os o (plugin_dir s // "GitHub") s1)
      as [[[]|e] s2]; [|reflexivity].
    cbn [attempt_all_os]. os_step. rewrite Hlist.
    rewrite load_remaining_os_spec by done.
    apply (f_equal (λ l, attempt_all_os o l s2)), filter_ext. intros p.
    apply (f_equal (andb _)), bool_decide_ext. cbn [list_to_set].
    set_solver.
  - cbn [map attempt_all_os]. os_step. rewrite Hlist.
    rewrite load_remaining_os_spec by done.
    apply (f_equal (λ l, attempt_all_os o l s1)), filter_ext. intros p.
    apply (f_equal (andb _)), bool_decide_ext. cbn [list_to_set].
    set_solver.
Qed.
End OSRun.

(** *** Where an attempt's effects come from *)


Lemma attempt_app_source w p s :
  app (_load_plugin w p s).2 = app s
  ∨ ∃ text manifest m f,
      w_open w (p // "plugin.cfg") = Text text
      ∧ parse_manifest text = Returned manifest
      ∧ w_import w (p // entry_file_name (path_name p) manifest)
        = ExecReturns m
      ∧ m !! register_function_name (path_name p) = Some (Callable f)
      ∧ app (_load_plugin w p s).2 = (f (app s)).1.
Proof.
  attempt_cases w p s; try (left; by state_simpl).
  - left. by destruct (isinstance_Exception e); state_simpl.
  - right. exists text, info, m, f. split_and!; [done..|].
    cbv zeta. destruct ((f (app s)).2) as [e|];
      [destruct (isinstance_Exception e)|]; by state_simpl.
Qed.

Lemma elem_of_with_search_path p s :
  path_str p ∈ sys_path (with_search_path p s).
Proof.
  unfold with_search_path. case_bool_decide as Hx; [left|].
  destruct (decide (path_str p ∈ sys_path s)); tauto.
Qed.

(** Lines 84-91: the plugin's directory is put on the search path once
    [module_from_spec] has returned, and stays there however the attempt
    goes on. *)
Lemma attempt_search_path_member w p s text manifest :
  w_exists w (p // "plugin.cfg") = true →
  w_open w (p // "plugin.cfg") = Text text →
  parse_manifest text = Returned manifest →
  w_exists w (p // entry_file_name (path_name p) manifest) = true →
  w_import w (p // entry_file_name (path_name p) manifest) ≠ NoSpec →
  path_str p ∈ sys_path (_load_plugin w p s).2
  ∧ ∀ e, w_import w (p // entry_file_name (path_name p) manifest)
         = ExecRaises e →
         plugins (_load_plugin w p s).2 = plugins s.
Proof.
  intros Hcfg Hopen Hparse Hmain Hspec.
  destruct (w_import w (p // entry_file_name (path_name p) manifest))
    as [|e|m] eqn:Himp; [done| |].
  - rewrite (attempt_exec_raises w p text manifest Hcfg Hopen Hparse
               Hmain s e Himp).
    split; [destruct (isinstance_Exception e); state_simpl;
            apply elem_of_with_search_path|].
    intros _ _. by destruct (isinstance_Exception e); state_simpl.
  - split; [|done].
    destruct (m !! register_function_name (path_name p)) as [[f|]|] eqn:Hsym.
    + rewrite (attempt_callable w p text manifest Hcfg Hopen Hparse
                 Hmain m Himp s f Hsym).
      cbv zeta. destruct ((f (app s)).2) as [e|];
        [destruct (isinstance_Exception e)|]; state_simpl;
        apply elem_of_with_search_path.
    + rewrite (attempt_not_callable w p text manifest Hcfg Hopen
                 Hparse Hmain m Himp s Hsym).
      state_simpl. apply elem_of_with_search_path.
    + rewrite (attempt_symbol_absent w p text manifest Hcfg Hopen
                 Hparse Hmain m Himp s Hsym).
      state_simpl. apply elem_of_with_search_path.
Qed.

Section OSFacts.
Context (o : OS).
Local Abbreviation w := (os_world o).
Implicit Types (p : Path) (ps : list Path) (s : State) (name : string).
Import LoadOrderSpec.


Lemma attempt_all_os_raise ps s e s' :
  attempt_all_os o ps s = (Raised e, s') →
  ∃ p s1, (p, s1) ∈ attempt_trace_os o ps s
          ∧ _load_plugin_os o p s1 = (Raised e, s').
Proof.
  revert s. induction ps as [|p ps IH]; intros s; [discriminate|].
  rewrite attempt_all_os_cons. cbn [attempt_trace_os].
  destruct (_load_plugin_os o p s) as [[[]|e1] s1] eqn:Hp.
  - intros (p' & s2 & Hin & Hraise)%IH. exists p', s2.
    split; [by right | done].
  - intros [= <- <-]. exists p, s. split; [left | done].
Qed.






End OSFacts.

Lemma attempt_all_os_answering o ps s :
  console_accepts o →
  (∀ p, p ∈ ps → os_stat_error o (p // "plugin.cfg") = None
                 ∧ inside_error o p = None) →
  attempt_all_os o ps s = attempt_all (os_world o) ps s.
Proof.
  intros Hc. revert s. induction ps as [|p ps IH]; intros s Hps; [done|].
  rewrite attempt_all_os_cons, attempt_all_cons.
  destruct (Hps p) as [Hcfg Hin]; [left|].
  rewrite attempt_os_answering by done.
  destruct (_load_plugin (os_world o) p s) as [[[]|e] s1]; [|done].
  apply IH. intros q Hq. apply Hps. by right.
Qed.

(** Where every call answers, [load_plugins_os] is [load_plugins]. *)
Lemma load_plugins_os_answering o a s :
  console_accepts o →
  outside_calls_answer o s →
  (∀ p, p ∈ scheduled (os_world o) s → inside_error o p = None) →
  load_plugins_os o a s = load_plugins (os_world o) a s.
Proof.
  intros Hc (Hroot & Hlist & Hnames & Hcfgs) Hin.
  rewrite load_plugins_run. unfold scheduled in *.
  destruct (w_exists (os_world o) (plugin_dir s)) eqn:Hex.
  - rewrite load_plugins_os_run by auto.
    apply attempt_all_os_answering; [done|]. intros p Hp. split; auto.
  - by apply load_plugins_os_missing_root.
Qed.


(** ** Containment of failures *)

Lemma hostile_os_console : console_accepts hostile_os.
Proof. intros m. reflexivity. Qed.






(** Nor does the handler cover the test of line 56: the directory of
    Vault may not be searched, the test of its manifest raises, the error
    leaves [load_plugins], and Zeta, next in the enumeration and in good
    order (attempted alone it loads), is not attempted. *)
Lemma load_plugins_propagates_refused_test :
  (load_plugins_os vault_os (FastAPI []) fresh).1
  = Raised (PyException "OSError" "Permission denied")
  ∧ scheduled (os_world vault_os) fresh
    = [["plugin"; "ILL"]; ["plugin"; "Vault"]; ["plugin"; "Zeta"]]
  ∧ (load_trace_os vault_os (FastAPI []) fresh).*1
    = [["plugin"; "ILL"]; ["plugin"; "Vault"]]
  ∧ list_plugins (load_plugins_os vault_os (FastAPI []) fresh).2 = ["ILL"]
  ∧ list_plugins
      (_load_plugin_os vault_os ["plugin"; "Zeta"]
         (set_app (FastAPI []) fresh)).2 = ["Zeta"].
Proof. vm_compute. done. Qed.


(** ** The registration entry point *)

(** C5. The name looked up in a loaded module is ["register_"], the plugin
    name lower-cased with every hyphen replaced by an underscore, then
    ["_routes"].  If the module has no attribute of that name, nothing is
    called: the attempt returns, the dispatch surface is as before, the
    notice is printed and the plugin is recorded, so [list_plugins] shows
    it.  If the module binds that name to a callable, that callable is
    what is applied to the dispatch surface. *)
Theorem missing_registration_symbol w plugin_path s text manifest m :
  let plugin_name := path_name plugin_path in
  let entry := plugin_path // entry_file_name plugin_name manifest in
  let symbol :=
    "register_" +:+ replace "-" "_" (lower plugin_name) +:+ "_routes" in
  w_exists w (plugin_path // "plugin.cfg") = true →
  w_open w (plugin_path // "plugin.cfg") = Text text →
  parse_manifest text = Returned manifest →
  w_exists w entry = true →
  w_import w entry = ExecReturns m →
  (m !! symbol = None →
   ∃ s', _load_plugin w plugin_path s = (Returned tt, s')
         ∧ app s' = app s
         ∧ stdout s'
           = stdout s ++ [msg_register_function_not_found plugin_name symbol]
         ∧ dict_get plugin_name (plugins s')
           = Some (plugin_record manifest m plugin_path)
         ∧ plugin_name ∈ list_plugins s')
  ∧ (∀ f, m !! symbol = Some (Callable f) →
          app (_load_plugin w plugin_path s).2 = (f (app s)).1).
Proof.
  intros plugin_name entry symbol Hcfg Hopen Hparse Hmain Himp. split.
  - intros Hsym. eexists. split.
    + exact (attempt_symbol_absent w plugin_path text manifest Hcfg Hopen
               Hparse Hmain m Himp s Hsym).
    + state_simpl. split_and!; [done | done | apply dict_get_set_eq |].
      unfold list_plugins. cbn [plugins recorded set_plugins].
      apply dict_get_is_Some. rewrite dict_get_set_eq. by eexists.
  - intros f Hsym.
    rewrite (attempt_callable w plugin_path text manifest Hcfg Hopen Hparse
               Hmain m Himp s f Hsym).
    cbv zeta. destruct ((f (app s)).2) as [e|];
      [destruct (isinstance_Exception e)|]; reflexivity.
Qed.

Lemma missing_registration_symbol_witness :
  w_exists sample_world (["plugin"; "X"] // "plugin.cfg") = true
  ∧ (list_to_map [("helper", NotCallable)] : py_module)
      !! "register_x_routes" = None
  ∧ ∃ s', _load_plugin sample_world ["plugin"; "X"] fresh = (Returned tt, s')
          ∧ app s' = app fresh
          ∧ stdout s'
            = stdout fresh
              ++ [msg_register_function_not_found "X" "register_x_routes"]
          ∧ dict_get "X" (plugins s')
            = Some (plugin_record []
                      (list_to_map [("helper", NotCallable)])
                      ["plugin"; "X"])
          ∧ "X" ∈ list_plugins s'.
Proof.
  split; [reflexivity|]. split; [reflexivity|].
  apply (proj1 (missing_registration_symbol sample_world ["plugin"; "X"] fresh
                  "" [] (list_to_map [("helper", NotCallable)])
                  eq_refl eq_refl eq_refl eq_refl eq_refl)).
  reflexivity.
Defined.

(** C9. The branch taken when the plugin is called GitHub does what the
    other branch does: [_load_plugin] is, as a function, the loader
    without the test on the name. *)
Theorem github_branch_is_generic w plugin_path s :
  _load_plugin w plugin_path s = _load_plugin_uniform w plugin_path s.
Proof.
  unfold _load_plugin, _load_plugin_uniform. cbv zeta.
  destruct (bool_decide (path_name plugin_path = "GitHub")); reflexivity.
Qed.

(** C10. When the module binds the registration name to something that is
    not callable, the call is attempted and raises; the failure is caught
    as any load failure is: the attempt returns, an error line is printed,
    the dispatch surface and the registry are as before.  With the name
    absent instead, the plugin is recorded. *)
Theorem non_callable_registration_symbol w plugin_path s text manifest m :
  let plugin_name := path_name plugin_path in
  let entry := plugin_path // entry_file_name plugin_name manifest in
  let symbol := register_function_name plugin_name in
  w_exists w (plugin_path // "plugin.cfg") = true →
  w_open w (plugin_path // "plugin.cfg") = Text text →
  parse_manifest text = Returned manifest →
  w_exists w entry = true →
  w_import w entry = ExecReturns m →
  (m !! symbol = Some NotCallable →
   ∃ s', _load_plugin w plugin_path s = (Returned tt, s')
         ∧ stdout s'
           = stdout s ++ [msg_load_error plugin_name "object is not callable"]
         ∧ app s' = app s
         ∧ plugins s' = plugins s
         ∧ (plugin_name ∉ list_plugins s → plugin_name ∉ list_plugins s'))
  ∧ (m !! symbol = None →
     plugin_name ∈ list_plugins (_load_plugin w plugin_path s).2).
Proof.
  intros plugin_name entry symbol Hcfg Hopen Hparse Hmain Himp. split.
  - intros Hsym. eexists. split.
    + exact (attempt_not_callable w plugin_path text manifest Hcfg Hopen
               Hparse Hmain m Himp s Hsym).
    + unfold list_plugins. state_simpl. done.
  - intros Hsym.
    rewrite (attempt_symbol_absent w plugin_path text manifest Hcfg Hopen
               Hparse Hmain m Himp s Hsym).
    unfold list_plugins. cbn [snd plugins recorded set_plugins].
    apply dict_get_is_Some. rewrite dict_get_set_eq. by eexists.
Qed.

Lemma non_callable_registration_symbol_witness :
  w_exists faulty_world (["plugin"; "Mailer"] // "plugin.cfg") = true
  ∧ (list_to_map [("register_mailer_routes", NotCallable)] : py_module)
      !! register_function_name "Mailer" = Some NotCallable
  ∧ ∃ s', _load_plugin faulty_world ["plugin"; "Mailer"] fresh
          = (Returned tt, s')
          ∧ stdout s'
            = stdout fresh
              ++ [msg_load_error "Mailer" "object is not callable"]
          ∧ app s' = app fresh
          ∧ plugins s' = plugins fresh
          ∧ ("Mailer" ∉ list_plugins fresh → "Mailer" ∉ list_plugins s').
Proof.
  split; [reflexivity|]. split; [reflexivity|].
  apply (proj1 (non_callable_registration_symbol faulty_world
                  ["plugin"; "Mailer"] fresh "" []
                  (list_to_map [("register_mailer_routes", NotCallable)])
                  eq_refl eq_refl eq_refl eq_refl eq_refl)).
  reflexivity.
Defined.

(** ** The entry file *)

(** C6. The entry file is [manifest["plugin_main_file"]] when the
    manifest has that key, else the lower-cased directory name followed by
    [".py"], and the entry path is the plugin's directory joined with it.
    If nothing exists at that path the plugin is skipped: the attempt
    returns having printed the notice and changed nothing else, and a run
    goes on with the plugins after it.  The attempt consults the
    environment at the manifest and at that entry path only: worlds that
    agree there yield the same attempt. *)
Theorem entry_file_resolution w plugin_path s text manifest :
  let plugin_name := path_name plugin_path in
  let config_file := plugin_path // "plugin.cfg" in
  let entry_file :=
    match dict_get "plugin_main_file" manifest with
    | Some main_file => main_file
    | None => lower plugin_name +:+ ".py"
    end in
  let entry_path := plugin_path // entry_file in
  w_exists w config_file = true →
  w_open w config_file = Text text →
  parse_manifest text = Returned manifest →
  (w_exists w entry_path = false →
   let s' := logged (msg_main_file_not_found plugin_name entry_file) s in
   _load_plugin w plugin_path s = (Returned tt, s')
   ∧ plugins s' = plugins s
   ∧ ∀ rest, attempt_all w (plugin_path :: rest) s = attempt_all w rest s')
  ∧ (∀ w',
        w_exists w' config_file = true →
        w_open w' config_file = Text text →
        w_exists w' entry_path = w_exists w entry_path →
        w_import w' entry_path = w_import w entry_path →
        _load_plugin w' plugin_path s = _load_plugin w plugin_path s).
Proof.
  intros plugin_name config_file entry_file entry_path Hcfg Hopen Hparse.
  split.
  - intros Hmain s'.
    pose proof (attempt_no_entry w plugin_path text manifest Hcfg Hopen
                  Hparse s Hmain) as Hskip.
    split_and!; [exact Hskip | reflexivity |].
    intros rest. by rewrite attempt_all_cons, Hskip.
  - intros w' Hcfg' Hopen' Hmain' Himp'.
    unfold _load_plugin. fold config_file. rewrite Hcfg, Hcfg'. py_step.
    rewrite Hopen, Hopen', Hparse, entry_file_name_get_default.
    change (entry_file_name (path_name plugin_path) manifest) with entry_file.
    fold entry_path. rewrite Hmain'.
    destruct (w_exists w entry_path); py_step; [|reflexivity].
    rewrite Himp'. reflexivity.
Qed.

Lemma entry_file_resolution_witness :
  w_exists faulty_world (["plugin"; "Web-Hook"] // "plugin.cfg") = true
  ∧ w_open faulty_world (["plugin"; "Web-Hook"] // "plugin.cfg")
    = Text "plugin_main_file = main.py"
  ∧ parse_manifest "plugin_main_file = main.py"
    = Returned [("plugin_main_file", "main.py")]
  ∧ w_exists faulty_world (["plugin"; "Web-Hook"] // "main.py") = false
  ∧ _load_plugin faulty_world ["plugin"; "Web-Hook"] fresh
    = (Returned tt, logged (msg_main_file_not_found "Web-Hook" "main.py") fresh)
  ∧ _load_plugin sample_world ["plugin"; "ILL"] fresh
    = _load_plugin (world_of (sample_root [])) ["plugin"; "ILL"] fresh.
Proof.
  do 4 (split; [reflexivity|]). split.
  - apply (proj1 (entry_file_resolution faulty_world ["plugin"; "Web-Hook"]
                    fresh "plugin_main_file = main.py"
                    [("plugin_main_file", "main.py")]
                    eq_refl eq_refl eq_refl)).
    reflexivity.
  - apply (proj2 (entry_file_resolution (world_of (sample_root []))
                    ["plugin"; "ILL"] fresh _
                    [("plugin_main_file", "ill.py"); ("plugin_version", "1.0")]
                    eq_refl eq_refl eq_refl));
      reflexivity.
Defined.

(** ** The module search path *)

(** C7. An attempt leaves the search path as it was or puts the plugin's
    directory in front of it, the latter only when the directory was not
    in it.  So no entry gains a second occurrence: however often the same
    plugin root is loaded, and over [load_plugins] invoked twice (on the
    same or on a changed disk), each entry occurs at most once, or as
    often as it did at the start. *)
Theorem search_path_insertion_idempotent :
  (∀ w p s,
      sys_path (_load_plugin w p s).2 = sys_path s
      ∨ ((path_str p ∉ sys_path s)
         ∧ sys_path (_load_plugin w p s).2 = path_str p :: sys_path s))
  ∧ (∀ w p s x,
        occurrences x (sys_path (attempt_all w [p; p] s).2)
        ≤ Nat.max 1 (occurrences x (sys_path s)))
  ∧ (∀ w1 w2 a1 a2 s x,
        occurrences x
          (sys_path (load_plugins w2 a2 (load_plugins w1 a1 s).2).2)
        ≤ Nat.max 1 (occurrences x (sys_path s))).
Proof.
  split_and!.
  - intros w p s. apply attempt_sys_path.
  - intros w p s x. apply run_occurrences.
  - intros w1 w2 a1 a2 s x.
    destruct (load_plugins_scheduled w2 a2 (load_plugins w1 a1 s).2)
      as (_ & _ & _ & ->).
    pose proof (run_occurrences w2
                  (scheduled w2 (load_plugins w1 a1 s).2)
                  (set_app a2 (load_plugins w1 a1 s).2) x) as H2.
    cbn [sys_path set_app] in H2.
    destruct (load_plugins_scheduled w1 a1 s) as (_ & _ & _ & Hs1).
    rewrite Hs1 in H2.
    pose proof (run_occurrences w1 (scheduled w1 s) (set_app a1 s) x) as H1.
    cbn [sys_path set_app] in H1. lia.
Qed.

(** ** Introspection *)

(** C8. [get_plugin_info] of a name that is not in the registry is the
    empty mapping, in any state of the manager; and after [load_plugins]
    has returned on a fresh manager, [get_plugin_info] of a registered
    name is the manifest parsed from that plugin's [plugin.cfg]. *)
Theorem get_plugin_info_spec w a s s' :
  plugins s = [] →
  load_plugins w a s = (Returned tt, s') →
  (∀ s0 name, name ∉ list_plugins s0 → get_plugin_info name s0 = VDict [])
  ∧ (∀ name,
        name ∈ list_plugins s' →
        ∃ text manifest,
          w_open w (plugin_dir s // name // "plugin.cfg") = Text text
          ∧ parse_manifest text = Returned manifest
          ∧ get_plugin_info name s' = VDict manifest).
Proof.
  intros Hempty Hrun. split.
  - intros s0 name Hname. unfold get_plugin_info, dict_get_default.
    unfold list_plugins in Hname.
    by rewrite (proj2 (dict_get_None (plugins s0) name) Hname).
  - intros name [rec Hrec]%dict_get_is_Some.
    destruct (load_plugins_scheduled w a s) as (_ & Hpl & _).
    rewrite Hrun in Hpl. cbn [snd] in Hpl.
    pose proof Hrec as Hnew. rewrite Hpl in Hnew.
    apply run_registry_sound in Hnew as [Hold|Hnew].
    { cbn [plugins set_app] in Hold. by rewrite Hempty in Hold. }
    destruct Hnew as (p & s1 & mf & m & Hin & <- & Hc & ->).
    apply elem_of_attempt_trace, scheduled_children in Hin.
    destruct Hc as [_ (text & Ht & Hp) _ _ _].
    exists text, mf. rewrite <-Hin. split_and!; [done | done |].
    unfold get_plugin_info, dict_get_default. unfold pydict in *.
    by rewrite Hrec.
Qed.

Lemma get_plugin_info_spec_witness :
  plugins fresh = []
  ∧ load_plugins sample_world (FastAPI []) fresh = (Returned tt, sample_final)
  ∧ get_plugin_info "TTS" sample_final = VDict []
  ∧ ∃ text manifest,
      w_open sample_world (plugin_dir fresh // "ILL" // "plugin.cfg")
      = Text text
      ∧ parse_manifest text = Returned manifest
      ∧ get_plugin_info "ILL" sample_final = VDict manifest.
Proof.
  assert (load_plugins sample_world (FastAPI []) fresh
          = (Returned tt, sample_final)) as Hrun by (vm_compute; reflexivity).
  split; [reflexivity|]. split; [exact Hrun|].
  destruct (get_plugin_info_spec sample_world (FastAPI []) fresh sample_final
              eq_refl Hrun) as [Hunknown Hknown].
  split.
  - apply Hunknown. change (list_plugins sample_final) with ["ILL"; "X"].
    apply (bool_decide_unpack _). vm_compute. exact I.
  - apply Hknown. change (list_plugins sample_final) with ["ILL"; "X"].
    apply (bool_decide_unpack _). vm_compute. exact I.
Defined.

(** ** More facts about strings *)

Section StringFacts.
Implicit Types (s t : string) (c : ascii).

Lemma append_cons c s t : String c s +:+ t = String c (s +:+ t).
Proof. reflexivity. Qed.

Lemma append_empty_l s : "" +:+ s = s.
Proof. reflexivity. Qed.

Lemma append_empty_r s : s +:+ "" = s.
Proof. induction s as [|c s IH]; [done|]. by rewrite append_cons, IH. Qed.

Lemma append_assoc s t u : (s +:+ t) +:+ u = s +:+ (t +:+ u).
Proof. induction s as [|c s IH]; [done|]. by rewrite !append_cons, IH. Qed.

Lemma contains_append c s t :
  contains c (s +:+ t) = contains c s || contains c t.
Proof.
  induction s as [|b s IH]; [done|].
  rewrite append_cons. cbn [contains]. by rewrite IH, orb_assoc.
Qed.

Lemma lstrip_length s : String.length (lstrip s) ≤ String.length s.
Proof.
  induction s as [|c s IH]; cbn [lstrip String.length]; [lia|].
  destruct (isspace c); cbn [String.length]; lia.
Qed.

Lemma rstrip_length s : String.length (rstrip s) ≤ String.length s.
Proof.
  induction s as [|c s IH]; cbn [rstrip String.length]; [lia|].
  destruct (rstrip s); [destruct (isspace c)|]; cbn [String.length] in *; lia.
Qed.

Lemma strip_fixed s : strip s = s → lstrip s = s ∧ rstrip s = s.
Proof.
  unfold strip. intros H.
  assert (lstrip s = s) as Hl.
  { destruct s as [|c s]; [done|]. cbn [lstrip] in *.
    destruct (isspace c); [|done]. exfalso.
    pose proof (rstrip_length (lstrip s)). pose proof (lstrip_length s).
    apply (f_equal String.length) in H. cbn [String.length] in H. lia. }
  by rewrite Hl in H.
Qed.

(** A string without leading whitespace is empty or begins with a
    character that is not whitespace. *)
Lemma lstrip_fixed_head s :
  lstrip s = s → s = "" ∨ ∃ c r, s = String c r ∧ isspace c = false.
Proof.
  destruct s as [|c r]; [by left|]. intros H. right. exists c, r.
  split; [done|]. cbn [lstrip] in H. destruct (isspace c); [|done].
  pose proof (lstrip_length r). apply (f_equal String.length) in H.
  cbn [String.length] in H. lia.
Qed.

Lemma lstrip_lstrip s : lstrip (lstrip s) = lstrip s.
Proof.
  induction s as [|c s IH]; [done|]. cbn [lstrip].
  destruct (isspace c) eqn:Hc; [done|]. cbn [lstrip]. by rewrite Hc.
Qed.

Lemma rstrip_rstrip s : rstrip (rstrip s) = rstrip s.
Proof.
  induction s as [|c s IH]; [done|]. cbn [rstrip].
  destruct (rstrip s) as [|b r] eqn:Hr.
  - destruct (isspace c) eqn:Hc; [done|]. cbn [rstrip]. by rewrite Hc.
  - cbn [rstrip]. cbn [rstrip] in IH. by rewrite IH.
Qed.

(** [rstrip] leaves a first character that is not whitespace in place. *)
Lemma rstrip_head c s :
  isspace c = false → ∃ r, rstrip (String c s) = String c r.
Proof.
  intros Hc. cbn [rstrip]. destruct (rstrip s); rewrite ?Hc; by eexists.
Qed.

Lemma lstrip_rstrip_fixed s : lstrip s = s → lstrip (rstrip s) = rstrip s.
Proof.
  intros [->|(c & r & -> & Hc)]%lstrip_fixed_head; [done|].
  destruct (rstrip_head c r Hc) as [r' ->]. cbn [lstrip]. by rewrite Hc.
Qed.

Lemma strip_strip s : strip (strip s) = strip s.
Proof.
  unfold strip. rewrite (lstrip_rstrip_fixed (lstrip s)), rstrip_rstrip;
    [done | apply lstrip_lstrip].
Qed.

Lemma rstrip_append_space s c : isspace c = true →
  rstrip (s +:+ String c "") = rstrip s.
Proof.
  intros Hc. induction s as [|b s IH].
  - rewrite append_empty_l. cbn [rstrip]. by rewrite Hc.
  - rewrite append_cons. cbn [rstrip]. by rewrite IH.
Qed.

Lemma strip_append_space s c : isspace c = true →
  strip (s +:+ String c "") = strip s.
Proof.
  intros Hc. unfold strip. induction s as [|b s IH].
  - rewrite append_empty_l. cbn [lstrip]. by rewrite Hc.
  - rewrite append_cons. cbn [lstrip]. destruct (isspace b); [done|].
    by rewrite <-append_cons, rstrip_append_space.
Qed.

Lemma lstrip_append s t : lstrip s = s → s ≠ "" → lstrip (s +:+ t) = s +:+ t.
Proof.
  intros [->|(c & r & -> & Hc)]%lstrip_fixed_head Hne; [done|].
  rewrite append_cons. cbn [lstrip]. by rewrite Hc.
Qed.

Lemma rstrip_append s t : rstrip t = t → t ≠ "" → rstrip (s +:+ t) = s +:+ t.
Proof.
  intros Ht Hne. induction s as [|c s IH]; [done|].
  rewrite append_cons. cbn [rstrip]. rewrite IH.
  destruct (s +:+ t) eqn:Hst; [|done].
  destruct s; [by subst | discriminate].
Qed.

Lemma contains_lstrip c s : contains c (lstrip s) = true → contains c s = true.
Proof.
  induction s as [|b s IH]; [done|]. cbn [lstrip].
  destruct (isspace b); [|done]. intros H%IH. cbn [contains].
  by rewrite H, orb_true_r.
Qed.

Lemma contains_rstrip c s : contains c (rstrip s) = true → contains c s = true.
Proof.
  induction s as [|b s IH]; [done|]. cbn [rstrip contains].
  destruct (rstrip s) as [|b' r].
  - destruct (isspace b); [done|]. cbn [contains]. rewrite orb_false_r.
    by intros ->.
  - cbn [contains] in *. intros [->|H]%orb_true_iff; [done|].
    by rewrite IH, orb_true_r.
Qed.

Lemma contains_strip c s : contains c (strip s) = true → contains c s = true.
Proof. unfold strip. by intros ?%contains_rstrip%contains_lstrip. Qed.

Lemma not_contains_strip c s :
  contains c s = false → contains c (strip s) = false.
Proof.
  intros H. destruct (contains c (strip s)) eqn:Hs; [|done].
  apply contains_strip in Hs. congruence.
Qed.
End StringFacts.

(** ** Reading a written manifest *)

Section WrittenManifest.
Import ManifestText.
Implicit Types (s t k v : string) (d : pydict string string).

Lemma universal_newlines_line s t :
  contains CR s = false →
  universal_newlines (s +:+ String LF t) = s +:+ String LF (universal_newlines t).
Proof.
  induction s as [|c s IH]; [done|].
  rewrite !append_cons. cbn [contains universal_newlines].
  intros [Hc Hs]%orb_false_iff. rewrite Hc. by rewrite IH.
Qed.

Lemma keepends_line s t :
  contains LF s = false →
  keepends (s +:+ String LF t) = (s +:+ String LF "") :: keepends t.
Proof.
  induction s as [|c s IH]; [done|].
  rewrite !append_cons. cbn [contains keepends].
  intros [Hc Hs]%orb_false_iff. rewrite Hc. by rewrite IH.
Qed.

Lemma readlines_line s t :
  no_newline s = true →
  readlines (s +:+ String LF t) = (s +:+ String LF "") :: readlines t.
Proof.
  unfold no_newline, readlines.
  intros [Hlf Hcr]%andb_true_iff. apply negb_true_iff in Hlf, Hcr.
  by rewrite universal_newlines_line, keepends_line.
Qed.

Lemma isspace_LF : isspace LF = true.
Proof. reflexivity. Qed.

Lemma parse_line_remark d text :
  remark_ok text = true → parse_line d (text +:+ String LF "") = Returned d.
Proof.
  unfold remark_ok, parse_line. intros [_ Hskip]%andb_true_iff.
  rewrite (strip_append_space _ _ isspace_LF).
  destruct (contains "=" (strip text)); [|done].
  cbn [negb orb] in Hskip. by rewrite Hskip.
Qed.

Lemma before_append c s t :
  contains c s = false → ManifestSpec.before c (s +:+ String c t) = s.
Proof.
  induction s as [|b s IH].
  - intros _. rewrite append_empty_l. cbn. by rewrite bool_decide_eq_true_2.
  - rewrite append_cons. cbn [contains ManifestSpec.before].
    intros [Hb Hs]%orb_false_iff. rewrite Hb. by rewrite IH.
Qed.

Lemma after_append c s t :
  contains c s = false → ManifestSpec.after c (s +:+ String c t) = t.
Proof.
  induction s as [|b s IH].
  - intros _. rewrite append_empty_l. cbn. by rewrite bool_decide_eq_true_2.
  - rewrite append_cons. cbn [contains ManifestSpec.after].
    intros [Hb Hs]%orb_false_iff. rewrite Hb. by rewrite IH.
Qed.

Lemma entry_line_stripped k v :
  strip k = k → strip v = v → strip (k +:+ String "=" v) = k +:+ String "=" v.
Proof.
  intros [Hlk _]%strip_fixed [_ Hrv]%strip_fixed. unfold strip.
  assert (lstrip (k +:+ String "=" v) = k +:+ String "=" v) as ->.
  { destruct k as [|c k]; [done|]. by apply lstrip_append. }
  apply rstrip_append; [|done].
  destruct v as [|c v]; [done|].
  by apply (rstrip_append (String "=" "") (String c v)).
Qed.

Lemma entry_line_not_comment k v :
  startswith "#" k = false → startswith "#" (k +:+ String "=" v) = false.
Proof. destruct k as [|c k]; [done|]. rewrite append_cons. cbn. by destruct k. Qed.

Lemma parse_line_entry d k v :
  entry_ok k v = true →
  parse_line d ((k +:+ String "=" v) +:+ String LF "")
  = Returned (dict_set k v d).
Proof.
  unfold entry_ok, clean, parse_line.
  intros [[[[Hk _]%andb_true_iff [Hv _]%andb_true_iff]%andb_true_iff
            Heq%negb_true_iff]%andb_true_iff Hhash%negb_true_iff]%andb_true_iff.
  apply bool_decide_eq_true in Hk, Hv.
  rewrite (strip_append_space _ _ isspace_LF), (entry_line_stripped _ _ Hk Hv).
  rewrite contains_append. cbn [contains].
  rewrite bool_decide_eq_true_2 by done. rewrite orb_true_r.
  rewrite (entry_line_not_comment _ _ Hhash). cbn [andb negb].
  rewrite split_once
    by (rewrite contains_append; cbn [contains];
        rewrite bool_decide_eq_true_2 by done; apply orb_true_r).
  by rewrite (before_append _ _ _ Heq), (after_append _ _ _ Heq), Hk, Hv.
Qed.

Lemma no_newline_entry k v :
  entry_ok k v = true → no_newline (k +:+ String "=" v) = true.
Proof.
  unfold entry_ok, clean, no_newline.
  intros [[[[_ [Hk1 Hk2]%andb_true_iff]%andb_true_iff
              [_ [Hv1 Hv2]%andb_true_iff]%andb_true_iff]%andb_true_iff
            _]%andb_true_iff _]%andb_true_iff.
  apply negb_true_iff in Hk1, Hk2, Hv1, Hv2.
  rewrite !contains_append. cbn [contains]. rewrite Hk1, Hk2, Hv1, Hv2.
  reflexivity.
Qed.

(** Reading the written items from a dictionary [d] on: the bindings are
    set one after the other. *)
Lemma parse_lines_render items d :
  forallb item_ok items = true →
  parse_lines (readlines (render items)) d
  = Returned (foldl (λ d i, match i with
                            | Entry key value => dict_set key value d
                            | Remark _ => d
                            end) d items).
Proof.
  revert d. induction items as [|[k v|text] items IH]; intros d;
    cbn [forallb render render_item item_ok foldl]; [done| |];
    intros [Hi Hrest]%andb_true_iff.
  - rewrite readlines_line by by apply no_newline_entry.
    cbn [parse_lines]. rewrite (parse_line_entry _ _ _ Hi). by apply IH.
  - rewrite readlines_line
      by (unfold remark_ok in Hi; by apply andb_true_iff in Hi as [? _]).
    cbn [parse_lines]. rewrite (parse_line_remark _ _ Hi). by apply IH.
Qed.
End WrittenManifest.

(** ** What a parsed manifest can hold *)

Section ParsedManifest.
Import ManifestText.
Implicit Types (s t k v : string) (d : pydict string string).

Lemma universal_newlines_no_CR s : contains CR (universal_newlines s) = false.
Proof.
  assert (∀ n s, String.length s ≤ n →
                 contains CR (universal_newlines s) = false) as H.
  { clear s. induction n as [|n IH]; intros [|c s] Hn; try done;
      cbn [String.length] in Hn; [lia|].
    cbn [universal_newlines]. case_bool_decide as Hc.
    - cbn [contains]. rewrite bool_decide_eq_false_2 by done. cbn [orb].
      destruct s as [|c' s']; [done|].
      cbn [String.length] in Hn. case_bool_decide; apply IH;
        cbn [String.length]; lia.
    - cbn [contains]. rewrite bool_decide_eq_false_2 by done.
      apply IH. lia. }
  by apply (H (String.length s)).
Qed.

Lemma keepends_lines s :
  contains CR s = false →
  Forall (λ l, contains CR l = false
               ∧ (contains LF l = false
                  ∨ ∃ b, l = b +:+ String LF "" ∧ contains LF b = false))
    (keepends s).
Proof.
  induction s as [|c s IH]; [constructor|].
  cbn [contains keepends]. intros [Hc Hs]%orb_false_iff.
  specialize (IH Hs). destruct (bool_decide (c = LF)) eqn:Hlf.
  - constructor; [|done]. split; [done|]. right. by exists "".
  - destruct (keepends s) as [|l ls].
    + constructor; [|done]. cbn [contains]. rewrite Hc, Hlf.
      by split; [|left].
    + apply Forall_cons in IH as [[Hcr Hl] Hls]. constructor; [|done].
      cbn [contains]. rewrite Hc, Hcr, Hlf. split; [done|].
      destruct Hl as [Hl|(b & -> & Hb)].
      * left. by rewrite Hl.
      * right. exists (String c b). split; [done|]. cbn [contains].
        by rewrite Hb, Hlf.
Qed.

(** No line of a file, once stripped, holds a line break. *)
Lemma readlines_stripped text :
  Forall (λ l, no_newline (strip l) = true) (readlines text).
Proof.
  unfold readlines.
  eapply Forall_impl; [apply keepends_lines, universal_newlines_no_CR|].
  intros l [Hcr Hlf]. unfold no_newline.
  rewrite (not_contains_strip _ _ Hcr).
  destruct Hlf as [Hlf|(b & -> & Hb)].
  - by rewrite (not_contains_strip _ _ Hlf).
  - rewrite (strip_append_space _ _ isspace_LF).
    by rewrite (not_contains_strip _ _ Hb).
Qed.

Lemma contains_before c c' s :
  contains c s = false → contains c (ManifestSpec.before c' s) = false.
Proof.
  induction s as [|b s IH]; [done|]. cbn [contains ManifestSpec.before].
  intros [Hb Hs]%orb_false_iff. destruct (bool_decide (b = c')); [done|].
  cbn [contains]. by rewrite Hb, IH.
Qed.

Lemma contains_after c c' s :
  contains c s = false → contains c (ManifestSpec.after c' s) = false.
Proof.
  induction s as [|b s IH]; [done|]. cbn [contains ManifestSpec.after].
  intros [Hb Hs]%orb_false_iff. destruct (bool_decide (b = c')); [done|].
  by apply IH.
Qed.

Lemma before_has_no_separator c s : contains c (ManifestSpec.before c s) = false.
Proof.
  induction s as [|b s IH]; [done|]. cbn [ManifestSpec.before].
  destruct (bool_decide (b = c)) eqn:Hb; [done|]. cbn [contains].
  by rewrite IH, Hb.
Qed.

(** The key cut from a stripped line that is not a comment does not
    begin with '#'. *)
Lemma key_not_comment s :
  strip s = s → startswith "#" s = false →
  startswith "#" (strip (ManifestSpec.before "=" s)) = false.
Proof.
  intros [[->|(c & r & -> & Hc)]%lstrip_fixed_head _]%strip_fixed Hhash;
    [done|].
  cbn [ManifestSpec.before]. case_bool_decide; [done|].
  unfold strip. cbn [lstrip]. rewrite Hc.
  destruct (rstrip_head c (ManifestSpec.before "=" r) Hc) as [r' ->].
  cbn in Hhash |- *. by destruct (bool_decide ("#"%char = c)).
Qed.

Lemma elem_of_dict_set {K V} `{EqDecision K} (m : pydict K V) i x ix :
  ix ∈ dict_set i x m → ix = (i, x) ∨ ix ∈ m.
Proof.
  induction m as [|[i0 x0] m IH]; cbn [dict_set].
  - intros ->%list_elem_of_singleton. by left.
  - case_decide as Hi.
    + subst i0. intros [->|?]%elem_of_cons; [by left | right; by right].
    + intros [->|[->|?]%IH]%elem_of_cons;
        [right; by left | by left | right; by right].
Qed.

Lemma dict_get_elem_of {K V} `{EqDecision K} (m : pydict K V) i x :
  dict_get i m = Some x → (i, x) ∈ m.
Proof.
  induction m as [|[i0 x0] m IH]; [done|]. cbn [dict_get].
  case_decide as Hi; [intros [= <-]; subst; left | right; by apply IH].
Qed.

Lemma parse_line_bindings d d' line :
  no_newline (strip line) = true →
  Forall (λ kv, entry_ok kv.1 kv.2 = true) d →
  parse_line d line = Returned d' →
  Forall (λ kv, entry_ok kv.1 kv.2 = true) d'.
Proof.
  unfold parse_line, no_newline.
  intros [Hlf Hcr]%andb_true_iff Hd. apply negb_true_iff in Hlf, Hcr.
  destruct (contains "=" (strip line)) eqn:Heq;
    [|by intros [= <-]].
  destruct (startswith "#" (strip line)) eqn:Hhash; cbn [andb negb];
    [by intros [= <-]|].
  rewrite (split_once _ _ Heq). intros [= <-].
  apply Forall_forall. intros kv [->|Hin]%elem_of_dict_set;
    [|by eapply (proj1 (Forall_forall _ _) Hd)].
  cbn [fst snd]. unfold entry_ok, clean, no_newline.
  rewrite !strip_strip, !bool_decide_eq_true_2 by done.
  rewrite !(not_contains_strip _ _ (contains_before _ _ _ Hlf)),
    !(not_contains_strip _ _ (contains_before _ _ _ Hcr)),
    !(not_contains_strip _ _ (contains_after _ _ _ Hlf)),
    !(not_contains_strip _ _ (contains_after _ _ _ Hcr)),
    (not_contains_strip _ _ (before_has_no_separator _ _)),
    (key_not_comment _ (strip_strip _) Hhash).
  reflexivity.
Qed.

Lemma parse_lines_bindings lines d d' :
  Forall (λ l, no_newline (strip l) = true) lines →
  Forall (λ kv, entry_ok kv.1 kv.2 = true) d →
  parse_lines lines d = Returned d' →
  Forall (λ kv, entry_ok kv.1 kv.2 = true) d'.
Proof.
  revert d. induction lines as [|l lines IH]; intros d Hl Hd;
    [by intros [= <-]|].
  apply Forall_cons in Hl as [Hl Hls]. cbn [parse_lines].
  destruct (parse_line d l) as [d1|e] eqn:H1; [|done].
  eapply IH; [done|]. by eapply parse_line_bindings.
Qed.

Lemma parse_manifest_bindings text d :
  parse_manifest text = Returned d →
  Forall (λ kv, entry_ok kv.1 kv.2 = true) d.
Proof.
  apply parse_lines_bindings; [apply readlines_stripped | constructor].
Qed.
End ParsedManifest.

Lemma dict_set_fresh {K V} `{EqDecision K} (m : pydict K V) i x :
  i ∉ dict_keys m → dict_set i x m = m ++ [(i, x)].
Proof.
  unfold dict_keys. induction m as [|[i0 x0] m IH]; [done|].
  cbn [map fst dict_set]. rewrite not_elem_of_cons. intros [Hne Hnin].
  case_decide; [congruence|]. by rewrite IH.
Qed.

Lemma entries_of_dict (acc d : pydict string string) :
  NoDup (dict_keys (acc ++ d)) →
  foldl (λ d i, match i with
                | ManifestText.Entry key value => dict_set key value d
                | ManifestText.Remark _ => d
                end) acc (ManifestText.of_dict d)
  = acc ++ d.
Proof.
  revert acc. induction d as [|[k v] d IH]; intros acc Hnd.
  - by rewrite app_nil_r.
  - cbn [ManifestText.of_dict map foldl fst snd].
    unfold ManifestText.of_dict in IH.
    assert (k ∉ dict_keys acc) as Hk.
    { unfold dict_keys in *. rewrite map_app in Hnd. cbn [map fst] in Hnd.
      apply NoDup_app in Hnd as (_ & Hnd & _). intros Hin.
      apply (Hnd _ Hin). left. }
    rewrite (dict_set_fresh _ _ _ Hk), IH, <-app_assoc; [done|].
    by rewrite <-app_assoc.
Qed.

(** X1. Whatever the file contains, every binding of the parsed manifest
    is well formed: key and value carry no surrounding whitespace and no
    line break, and the key holds no '=' and does not begin with '#'. *)
Theorem parsed_manifest_bindings_clean text manifest key value :
  parse_manifest text = Returned manifest →
  dict_get key manifest = Some value →
  strip key = key ∧ strip value = value
  ∧ contains "=" key = false ∧ startswith "#" key = false
  ∧ ManifestText.no_newline key = true
  ∧ ManifestText.no_newline value = true.
Proof.
  intros Hparse Hget%dict_get_elem_of.
  apply parse_manifest_bindings in Hparse.
  apply (proj1 (Forall_forall _ _) Hparse) in Hget. cbn [fst snd] in Hget.
  unfold ManifestText.entry_ok, ManifestText.clean in Hget.
  apply andb_true_iff in Hget as [[[[Hk Hnk]%andb_true_iff
    [Hv Hnv]%andb_true_iff]%andb_true_iff Heq%negb_true_iff]%andb_true_iff
    Hhash%negb_true_iff].
  apply bool_decide_eq_true in Hk, Hv. done.
Qed.

Lemma parsed_manifest_bindings_clean_witness :
  parse_manifest ("  plugin_main_file = ill.py  " +:+ newline +:+ "a=b=#c")
  = Returned [("plugin_main_file", "ill.py"); ("a", "b=#c")]
  ∧ strip "a" = "a" ∧ strip "b=#c" = "b=#c"
  ∧ contains "=" "a" = false ∧ startswith "#" "a" = false
  ∧ ManifestText.no_newline "a" = true
  ∧ ManifestText.no_newline "b=#c" = true.
Proof.
  split; [reflexivity|].
  apply (parsed_manifest_bindings_clean
           ("  plugin_main_file = ill.py  " +:+ newline +:+ "a=b=#c")
           [("plugin_main_file", "ill.py"); ("a", "b=#c")]);
    reflexivity.
Defined.

(** X2. A text of well-formed [key=value] lines with comment lines, blank
    lines and lines without '=' among them, each ended by a newline, is
    read back as exactly its bindings, a later binding of a key replacing
    an earlier one; the value may itself hold '='. *)
Theorem written_manifest_reads_back items :
  forallb ManifestText.item_ok items = true →
  parse_manifest (ManifestText.render items)
  = Returned (ManifestText.entries items).
Proof. apply parse_lines_render. Qed.

Lemma written_manifest_reads_back_witness :
  forallb ManifestText.item_ok
    [ManifestText.Remark "# manifest"; ManifestText.Entry "k" "v=1";
     ManifestText.Remark ""; ManifestText.Entry "k" "w"] = true
  ∧ parse_manifest
      (ManifestText.render
         [ManifestText.Remark "# manifest"; ManifestText.Entry "k" "v=1";
          ManifestText.Remark ""; ManifestText.Entry "k" "w"])
    = Returned [("k", "w")].
Proof.
  split; [reflexivity|].
  apply (written_manifest_reads_back
           [ManifestText.Remark "# manifest"; ManifestText.Entry "k" "v=1";
            ManifestText.Remark ""; ManifestText.Entry "k" "w"]).
  reflexivity.
Defined.

(** X3. Writing a parsed manifest out, one [key=value] line per binding,
    and parsing that text gives the same dictionary, in the same order. *)
Theorem parsed_manifest_round_trip text manifest :
  parse_manifest text = Returned manifest →
  parse_manifest (ManifestText.render (ManifestText.of_dict manifest))
  = Returned manifest.
Proof.
  intros Hparse. unfold parse_manifest.
  rewrite parse_lines_render.
  - f_equal. apply (entries_of_dict [] manifest).
    destruct (parse_lines_spec (readlines text) [] ∅) as (d & Hd & Hnd & _).
    { intros k. by rewrite lookup_empty. }
    unfold parse_manifest in Hparse. rewrite Hparse in Hd.
    injection Hd as <-. apply Hnd, NoDup_nil_2.
  - apply parse_manifest_bindings in Hparse.
    unfold ManifestText.of_dict. rewrite forallb_forall.
    intros i (kv & <- & Hin)%in_map_iff. cbn [ManifestText.item_ok].
    apply (proj1 (Forall_forall _ _) Hparse). by apply list_elem_of_In.
Qed.

Lemma parsed_manifest_round_trip_witness :
  parse_manifest ("  plugin_main_file = ill.py  " +:+ newline +:+ "a=b=#c")
  = Returned [("plugin_main_file", "ill.py"); ("a", "b=#c")]
  ∧ parse_manifest
      (ManifestText.render
         (ManifestText.of_dict
            [("plugin_main_file", "ill.py"); ("a", "b=#c")]))
    = Returned [("plugin_main_file", "ill.py"); ("a", "b=#c")].
Proof.
  split; [reflexivity|].
  apply (parsed_manifest_round_trip
           ("  plugin_main_file = ill.py  " +:+ newline +:+ "a=b=#c")).
  reflexivity.
Defined.

(** ** The registration name *)

Lemma lower_char_lower_char c : lower_char (lower_char c) = lower_char c.
Proof. by destruct c as [[] [] [] [] [] [] [] []]. Qed.

Lemma replace_lower_char c :
  (if bool_decide (lower_char c = "-"%char) then "_"%char else lower_char c)
  = lower_char (if bool_decide (c = "-"%char) then "_"%char else c).
Proof. by destruct c as [[] [] [] [] [] [] [] []]. Qed.

Lemma replace_lower s :
  replace "-" "_" (lower s) = lower (replace "-" "_" s).
Proof.
  induction s as [|c s IH]; [done|]. cbn [lower replace].
  by rewrite IH, replace_lower_char.
Qed.

Lemma lower_lower s : lower (lower s) = lower s.
Proof.
  induction s as [|c s IH]; [done|]. cbn [lower].
  by rewrite IH, lower_char_lower_char.
Qed.

Lemma replace_replace s :
  replace "-" "_" (replace "-" "_" s) = replace "-" "_" s.
Proof.
  induction s as [|c s IH]; [done|]. cbn [replace]. rewrite IH. f_equal.
  by repeat case_bool_decide.
Qed.

Lemma replace_has_no_hyphen s : contains "-" (replace "-" "_" s) = false.
Proof.
  induction s as [|c s IH]; [done|]. cbn [replace contains]. rewrite IH.
  by repeat case_bool_decide.
Qed.

(** X4. The registration name does not tell plugin names apart that
    differ only in letter case or in hyphen against underscore: lower-casing
    a name, or writing its hyphens as underscores, leaves the name looked
    up unchanged; and that name holds no hyphen. *)
Theorem register_function_name_collisions plugin_name :
  register_function_name (lower plugin_name)
  = register_function_name plugin_name
  ∧ register_function_name (replace "-" "_" plugin_name)
    = register_function_name plugin_name
  ∧ contains "-" (register_function_name plugin_name) = false.
Proof.
  unfold register_function_name. split_and!.
  - by rewrite lower_lower.
  - by rewrite <-replace_lower, replace_replace, replace_lower.
  - rewrite !contains_append, replace_has_no_hyphen. reflexivity.
Qed.

(** ** What is scheduled *)

Section Scheduled.
Context (w : World) (dir : Path).
Import LoadOrderSpec.


Global Instance joinpath_Inj : Inj (=) (=) (joinpath dir).
Proof. intros n n'. apply joinpath_inj. Qed.





End Scheduled.





(** ** Order of the registry and of the search path *)

Section Growth.
Context (w : World).
Implicit Types (p : Path) (ps : list Path) (s : State).

Lemma attempt_keys p s :
  list_plugins (_load_plugin w p s).2 = list_plugins s
  ∨ ((path_name p ∉ list_plugins s)
     ∧ list_plugins (_load_plugin w p s).2 = list_plugins s ++ [path_name p]).
Proof.
  unfold list_plugins.
  destruct (attempt_registry w p s) as [(mf & m & _ & _ & ->)|[_ ->]];
    [|by left].
  rewrite dict_keys_set. case_bool_decide; [by left | by right].
Qed.

Lemma run_keys ps s :
  ∃ new, list_plugins (attempt_all w ps s).2 = list_plugins s ++ new
         ∧ new `sublist_of` (path_name <$> ps)
         ∧ (NoDup (list_plugins s) → NoDup (list_plugins s ++ new)).
Proof.
  revert s. induction ps as [|p ps IH]; intros s.
  - exists []. rewrite app_nil_r. by split_and!.
  - rewrite attempt_all_cons. cbn [fmap list_fmap].
    pose proof (attempt_keys p s) as Hp.
    destruct (_load_plugin w p s) as [[[]|e] s1]; cbn [snd] in Hp |- *.
    + destruct (IH s1) as (new & Hnew & Hsub & Hnd).
      destruct Hp as [Hp|[Hnin Hp]]; rewrite Hp in Hnew, Hnd.
      * exists new. split_and!; [done | by apply sublist_cons | done].
      * exists (path_name p :: new). rewrite <-app_assoc in Hnew, Hnd.
        split_and!; [done | by apply sublist_skip |].
        intros Hs. apply Hnd, NoDup_app. split_and!; [done | | apply NoDup_singleton].
        by intros x Hx ->%list_elem_of_singleton.
    + destruct Hp as [Hp|[Hnin Hp]]; rewrite Hp.
      * exists []. rewrite app_nil_r. split_and!; [done | apply sublist_nil_l | done].
      * exists [path_name p]. split_and!; [done | | ].
        -- apply sublist_skip, sublist_nil_l.
        -- intros Hs. apply NoDup_app. split_and!; [done | | apply NoDup_singleton].
           by intros x Hx ->%list_elem_of_singleton.
Qed.

Lemma run_sys_path ps s :
  ∃ new, sys_path (attempt_all w ps s).2 = new ++ sys_path s
         ∧ reverse new `sublist_of` (path_str <$> ps).
Proof.
  revert s. induction ps as [|p ps IH]; intros s.
  - exists []. split; [done | apply sublist_nil_l].
  - rewrite attempt_all_cons. cbn [fmap list_fmap].
    pose proof (attempt_sys_path w p s) as Hp. cbv zeta in Hp.
    destruct (_load_plugin w p s) as [[[]|e] s1]; cbn [snd] in Hp |- *.
    + destruct (IH s1) as (new & Hnew & Hsub).
      destruct Hp as [Hp|[_ Hp]]; rewrite Hp in Hnew.
      * exists new. split; [done | by apply sublist_cons].
      * exists (new ++ [path_str p]). split; [by rewrite <-app_assoc|].
        rewrite reverse_snoc. by apply sublist_skip.
    + destruct Hp as [Hp|[_ Hp]]; rewrite Hp.
      * exists []. split; [done | apply sublist_nil_l].
      * exists [path_str p]. split; [done|].
        apply sublist_skip, sublist_nil_l.
Qed.
End Growth.

(** X7. [load_plugins] only adds to the registry, at its end: the names
    registered before keep their places, and the names it adds follow in
    the order in which their plugins were attempted, so [list_plugins]
    shows load order. *)
Theorem registry_grows_in_load_order w a s :
  ∃ new, list_plugins (load_plugins w a s).2 = list_plugins s ++ new
         ∧ new `sublist_of` (path_name <$> scheduled w s).
Proof.
  destruct (load_plugins_scheduled w a s) as (_ & Hpl & _).
  destruct (run_keys w (scheduled w s) (set_app a s)) as (new & Hnew & Hsub & _).
  exists new. split; [|done]. unfold list_plugins in *. by rewrite Hpl, Hnew.
Qed.

(** X8. [load_plugins] only adds to the module search path, at its front:
    the entries present before stay, in their order, behind the new ones;
    each new entry is the directory of a scheduled plugin, and the new
    entries stand in reverse order of attempt, the directory of the plugin
    loaded last first. *)
Theorem search_path_grows_at_front w a s :
  ∃ new, sys_path (load_plugins w a s).2 = new ++ sys_path s
         ∧ reverse new `sublist_of` (path_str <$> scheduled w s).
Proof.
  destruct (load_plugins_scheduled w a s) as (_ & _ & _ & Hsp).
  destruct (run_sys_path w (scheduled w s) (set_app a s)) as (new & Hnew & Hsub).
  exists new. split; [|done]. by rewrite Hsp, Hnew.
Qed.

(** X9. The plugin's directory enters the search path exactly when
    [module_from_spec] has returned for the entry file.  Once it has, the
    directory is on the search path after the attempt, however the
    attempt ends: a plugin whose module raises while it is executed is not
    registered, but its directory stays on the search path.  When
    [module_from_spec] raises (no loader, or a module that cannot be
    created), the search path and the registry are as before. *)
Theorem search_path_entered_after_module_from_spec
    o plugin_path s text manifest :
  let w := os_world o in
  let plugin_name := path_name plugin_path in
  let entry := plugin_path // entry_file_name plugin_name manifest in
  console_accepts o →
  os_stat_error o (plugin_path // "plugin.cfg") = None →
  w_exists w (plugin_path // "plugin.cfg") = true →
  w_open w (plugin_path // "plugin.cfg") = Text text →
  parse_manifest text = Returned manifest →
  os_stat_error o entry = None →
  w_exists w entry = true →
  (w_import w entry ≠ NoSpec → os_create_error o entry = None →
   path_str plugin_path ∈ sys_path (_load_plugin_os o plugin_path s).2
   ∧ ∀ e, w_import w entry = ExecRaises e →
          plugins (_load_plugin_os o plugin_path s).2 = plugins s)
  ∧ (w_import w entry = NoSpec ∨ is_Some (os_create_error o entry) →
     sys_path (_load_plugin_os o plugin_path s).2 = sys_path s
     ∧ plugins (_load_plugin_os o plugin_path s).2 = plugins s).
Proof.
  cbv zeta. intros Hc Hcfg Hex Hopen Hparse Hstat Hmain.
  rewrite attempt_os_spec by done. split.
  - intros Hspec Hcreate.
    rewrite (proj2 (inside_error_None o plugin_path text manifest Hex Hopen
                      Hparse Hmain Hspec)) by done.
    by apply (attempt_search_path_member _ _ _ text manifest).
  - unfold inside_error, read_manifest. cbv zeta.
    rewrite Hex, Hopen, Hparse, Hstat, Hmain.
    intros [Hspec|[e Hcreate]].
    + rewrite Hspec.
      by rewrite (attempt_no_spec _ plugin_path text manifest Hex Hopen
                    Hparse Hmain s Hspec).
    + destruct (w_import (os_world o) _) eqn:Himp.
      * by rewrite (attempt_no_spec _ plugin_path text manifest Hex Hopen
                      Hparse Hmain s Himp).
      * rewrite Hcreate. by destruct (isinstance_Exception e).
      * rewrite Hcreate. by destruct (isinstance_Exception e).
Qed.

Lemma search_path_entered_after_module_from_spec_witness :
  console_accepts (os_of broken_disk [] [])
  ∧ "plugin/Broken"
    ∈ sys_path (_load_plugin_os (os_of broken_disk [] [])
                  ["plugin"; "Broken"] fresh).2
  ∧ plugins (_load_plugin_os (os_of broken_disk [] [])
               ["plugin"; "Broken"] fresh).2
    = plugins fresh
  ∧ is_Some (os_create_error hostile_os (["plugin"; "Native"] // "native.so"))
  ∧ sys_path (_load_plugin_os hostile_os ["plugin"; "Native"] fresh).2
    = sys_path fresh.
Proof.
  split; [intros m; reflexivity|].
  destruct (search_path_entered_after_module_from_spec
              (os_of broken_disk [] []) ["plugin"; "Broken"] fresh "" []
              (λ m, eq_refl) eq_refl eq_refl eq_refl eq_refl eq_refl eq_refl)
    as [Hin _].
  destruct Hin as [Hin Hreg]; [discriminate | reflexivity |].
  split; [exact Hin|]. split; [by eapply Hreg|].
  destruct (search_path_entered_after_module_from_spec
              hostile_os ["plugin"; "Native"] fresh
              "plugin_main_file = native.so"
              [("plugin_main_file", "native.so")]
              (λ m, eq_refl) eq_refl eq_refl eq_refl eq_refl eq_refl eq_refl)
    as [_ Hout].
  assert (is_Some (os_create_error hostile_os
                     (["plugin"; "Native"] // "native.so"))) as Hcreate
    by (eexists; reflexivity).
  split; [exact Hcreate|]. apply Hout. by right.
Defined.

(** ** The dispatch surface and the log *)

(** X10. The engine itself never touches the dispatch surface: after an
    attempt the application object is as before, or it is what the
    registration function of the plugin's own module, the module of the
    entry file its manifest resolves to, made of it. *)
Theorem app_changes_only_by_own_registration o p s :
  console_accepts o →
  app (_load_plugin_os o p s).2 = app s
  ∨ ∃ text manifest m f,
      w_open (os_world o) (p // "plugin.cfg") = Text text
      ∧ parse_manifest text = Returned manifest
      ∧ w_import (os_world o) (p // entry_file_name (path_name p) manifest)
        = ExecReturns m
      ∧ m !! register_function_name (path_name p) = Some (Callable f)
      ∧ app (_load_plugin_os o p s).2 = (f (app s)).1.
Proof.
  intros Hc.
  destruct (os_stat_error o (p // "plugin.cfg")) as [msg|] eqn:Hcfg;
    [left; by rewrite (attempt_os_refused o p s msg)|].
  rewrite attempt_os_spec by done.
  destruct (inside_error o p) as [e|];
    [left; by destruct (isinstance_Exception e) | apply attempt_app_source].
Qed.

Lemma app_changes_only_by_own_registration_witness :
  console_accepts hostile_os
  ∧ app (_load_plugin_os hostile_os ["plugin"; "Zeta"]
           (set_app (FastAPI []) fresh)).2
    = FastAPI ["/zeta"]
  ∧ (app (_load_plugin_os hostile_os ["plugin"; "Zeta"]
            (set_app (FastAPI []) fresh)).2
     = app (set_app (FastAPI []) fresh)
     ∨ ∃ text manifest m f,
         w_open (os_world hostile_os) (["plugin"; "Zeta"] // "plugin.cfg")
         = Text text
         ∧ parse_manifest text = Returned manifest
         ∧ w_import (os_world hostile_os)
             (["plugin"; "Zeta"]
              // entry_file_name (path_name ["plugin"; "Zeta"]) manifest)
           = ExecReturns m
         ∧ m !! register_function_name (path_name ["plugin"; "Zeta"])
           = Some (Callable f)
         ∧ app (_load_plugin_os hostile_os ["plugin"; "Zeta"]
                  (set_app (FastAPI []) fresh)).2
           = (f (app (set_app (FastAPI []) fresh))).1).
Proof.
  split; [exact hostile_os_console|].
  split; [vm_compute; reflexivity|].
  exact (app_changes_only_by_own_registration hostile_os ["plugin"; "Zeta"]
           (set_app (FastAPI []) fresh) hostile_os_console).
Defined.

(** X13. An attempt that returns has printed exactly one line, about its
    plugin; that line is the success line or the notice of a missing
    registration function exactly when the load completed. *)
Theorem attempt_log_line w p s s' :
  _load_plugin w p s = (Returned tt, s') →
  ∃ msg,
    stdout s' = stdout s ++ [msg]
    ∧ message_plugin msg = path_name p
    ∧ ((msg = msg_loaded_and_registered (path_name p)
        ∨ msg = msg_register_function_not_found (path_name p)
                  (register_function_name (path_name p)))
       ↔ ∃ manifest m, completes w p (app s) manifest m).
Proof.
  attempt_cases w p s.
  - intros [= <-]. eexists. split_and!; [done | done |].
    split; [by intros [|] |]. intros (mf & m0 & H).
    apply (completes_inv _ _ _ _ _ _ _ Hopen Hparse) in H as (_ & _ & ? & _).
    congruence.
  - destruct (isinstance_Exception e); [|done]. intros [= <-].
    eexists. state_simpl. split_and!; [done | done |].
    split; [by intros [|] |]. intros (mf & m0 & H).
    apply (completes_inv _ _ _ _ _ _ _ Hopen Hparse) in H as (_ & _ & ? & _).
    congruence.
  - cbv zeta. destruct ((f (app s)).2) as [e|] eqn:Hf.
    + destruct (isinstance_Exception e); [|done]. intros [= <-].
      eexists. state_simpl. split_and!; [done | done |].
      split; [by intros [|] |]. intros (mf & m0 & H).
      apply (completes_inv _ _ _ _ _ _ _ Hopen Hparse) in H
        as (_ & _ & Hi & Hr).
      rewrite Himp in Hi. injection Hi as <-. rewrite Hsym in Hr. congruence.
    + intros [= <-]. eexists. state_simpl. split_and!; [done | done |].
      split; [intros _ | by left]. exists info, m.
      split; [done | by exists text | done | done |]. by rewrite Hsym.
  - intros [= <-]. eexists. state_simpl. split_and!; [done | done |].
    split; [by intros [|] |]. intros (mf & m0 & H).
    apply (completes_inv _ _ _ _ _ _ _ Hopen Hparse) in H as (_ & _ & Hi & Hr).
    rewrite Himp in Hi. injection Hi as <-. by rewrite Hsym in Hr.
  - intros [= <-]. eexists. state_simpl. split_and!; [done | done |].
    split; [intros _ | by right]. exists info, m.
    split; [done | by exists text | done | done |]. by rewrite Hsym.
  - intros [= <-]. eexists. split_and!; [done | done |].
    split; [by intros [|] |]. intros (mf & m0 & H).
    apply (completes_inv _ _ _ _ _ _ _ Hopen Hparse) in H as (_ & ? & _).
    congruence.
  - intros [= <-]. eexists. split_and!; [done | done |].
    split; [by intros [|] |].
    intros (mf & m0 & [_ (t & Ht & _) _ _ _]). congruence.
  - intros [= <-]. eexists. split_and!; [done | done |].
    split; [by intros [|] |]. intros (mf & m0 & [? _ _ _ _]). congruence.
Qed.

Lemma attempt_log_line_witness :
  _load_plugin sample_world ["plugin"; "GitHub"] fresh
  = (Returned tt, (_load_plugin sample_world ["plugin"; "GitHub"] fresh).2)
  ∧ ∃ msg,
      stdout (_load_plugin sample_world ["plugin"; "GitHub"] fresh).2
      = stdout fresh ++ [msg]
      ∧ message_plugin msg = "GitHub"
      ∧ ((msg = msg_loaded_and_registered "GitHub"
          ∨ msg = msg_register_function_not_found "GitHub"
                    (register_function_name "GitHub"))
         ↔ ∃ manifest m,
             completes sample_world ["plugin"; "GitHub"] (app fresh)
               manifest m).
Proof.
  assert (_load_plugin sample_world ["plugin"; "GitHub"] fresh
          = (Returned tt,
             (_load_plugin sample_world ["plugin"; "GitHub"] fresh).2))
    as Hrun by (vm_compute; reflexivity).
  split; [exact Hrun|].
  exact (attempt_log_line sample_world ["plugin"; "GitHub"] fresh _ Hrun).
Defined.

(** ** A plugin root without subdirectories *)

Lemma filter_none {A} (f : A → bool) (l : list A) :
  (∀ x, x ∈ l → f x = false) → List.filter f l = [].
Proof.
  induction l as [|x l IH]; [done|]. intros H. cbn [List.filter].
  rewrite (H x) by left. apply IH. intros y Hy. apply H. by right.
Qed.

Lemma attempt_order_without_subdirectories (w : World) dir :
  (∀ n, n ∈ ["ILL"; "TTS"; "AntiPublic-Web"; "GitHub"] ++ w_iterdir w dir →
        w_is_dir w (dir // n) = false) →
  LoadOrderSpec.attempt_order w dir = [].
Proof.
  intros Hnone.
  unfold LoadOrderSpec.attempt_order, LoadOrderSpec.phase1,
    LoadOrderSpec.phase2, LoadOrderSpec.phase3, iterdir.
  rewrite !filter_none; [done | | |].
  - intros p (n & -> & Hn)%list_elem_of_fmap. rewrite Hnone; [done|].
    set_solver.
  - intros p ->%list_elem_of_singleton.
    unfold LoadOrderSpec.directory_exists.
    rewrite Hnone, andb_false_r; [done|]. set_solver.
  - intros p (n & -> & Hn)%list_elem_of_fmap.
    unfold LoadOrderSpec.directory_exists.
    rewrite Hnone, andb_false_r; [done|].
    unfold LoadOrderSpec.priority_list in Hn. set_solver.
Qed.

(** X11. On a plugin root that exists, can be read and has no
    subdirectory (empty, or holding plain files only), the tests of the
    root and of the names below it answering, [load_plugins] returns
    having stored the application and done nothing else: no plugin is
    attempted and no line is printed. *)
Theorem load_plugins_on_root_without_subdirectories o a s :
  os_stat_error o (plugin_dir s) = None →
  w_exists (os_world o) (plugin_dir s) = true →
  os_listdir_error o (plugin_dir s) = None →
  (∀ n, n ∈ tested_names o (plugin_dir s) →
        os_stat_error o (plugin_dir s // n) = None
        ∧ w_is_dir (os_world o) (plugin_dir s // n) = false) →
  load_plugins_os o a s = (Returned tt, set_app a s).
Proof.
  intros Hstat Hroot Hlist Hnames.
  rewrite load_plugins_os_run; [|done..|intros n Hn; by apply Hnames].
  rewrite attempt_order_without_subdirectories; [done|].
  intros n Hn. by apply Hnames.
Qed.

Lemma load_plugins_on_root_without_subdirectories_witness :
  w_exists (os_world (os_of empty_disk [] [])) (plugin_dir fresh) = true
  ∧ os_listdir_error (os_of empty_disk [] []) (plugin_dir fresh) = None
  ∧ load_plugins_os (os_of empty_disk [] []) (FastAPI []) fresh
    = (Returned tt, set_app (FastAPI []) fresh).
Proof.
  split; [reflexivity|]. split; [reflexivity|].
  apply (load_plugins_on_root_without_subdirectories (os_of empty_disk [] []));
    [reflexivity..|].
  intros n Hn. split; reflexivity.
Defined.

(** ** The [/plugins] document *)

Section Endpoint.
Context {V : Type} (g : string → V).
Implicit Types (names : list string) (acc : pydict string V).

Lemma foldl_dict_set_get names acc name :
  dict_get name (foldl (λ d n, dict_set n (g n) d) acc names)
  = if bool_decide (name ∈ names) then Some (g name) else dict_get name acc.
Proof.
  revert acc. induction names as [|n names IH]; intros acc; cbn [foldl].
  - rewrite bool_decide_eq_false_2; [done | apply not_elem_of_nil].
  - rewrite IH, dict_get_set. case_bool_decide as Hin.
    + rewrite bool_decide_eq_true_2; [done | by right].
    + case_decide as Hn.
      * subst n. rewrite bool_decide_eq_true_2; [done | left].
      * rewrite bool_decide_eq_false_2; [done|].
        rewrite elem_of_cons. intros [?|?]; congruence.
Qed.

Lemma foldl_dict_set_fresh names acc :
  NoDup (dict_keys acc ++ names) →
  foldl (λ d n, dict_set n (g n) d) acc names
  = acc ++ map (λ n, (n, g n)) names.
Proof.
  revert acc. induction names as [|n names IH]; intros acc Hnd; cbn [foldl map].
  - by rewrite app_nil_r.
  - assert (n ∉ dict_keys acc) as Hn.
    { apply NoDup_app in Hnd as (_ & Hnd & _). intros Hin.
      apply (Hnd _ Hin). left. }
    rewrite (dict_set_fresh _ _ _ Hn), IH, <-app_assoc; [done|].
    unfold dict_keys in *. rewrite map_app. cbn [map fst].
    by rewrite <-app_assoc.
Qed.
End Endpoint.

Lemma load_plugins_keys_NoDup w a s :
  plugins s = [] → NoDup (list_plugins (load_plugins w a s).2).
Proof.
  intros Hempty.
  destruct (load_plugins_scheduled w a s) as (_ & Hpl & _).
  destruct (run_keys w (scheduled w s) (set_app a s)) as (new & Hnew & _ & Hnd).
  unfold list_plugins in *. rewrite Hpl, Hnew. apply Hnd.
  cbn [plugins set_app]. rewrite Hempty. constructor.
Qed.

(** X12. After [load_plugins] on a fresh manager, the document served at
    [/plugins] has exactly the registered names as its keys, in the order
    of the registry, and under each name what [get_plugin_info] returns
    for it; a name that is not registered is not in the document. *)
Theorem plugins_document_lists_registry w a s :
  plugins s = [] →
  dict_keys (get_plugins_info (load_plugins w a s).2)
  = list_plugins (load_plugins w a s).2
  ∧ ∀ name,
      dict_get name (get_plugins_info (load_plugins w a s).2)
      = if bool_decide (name ∈ list_plugins (load_plugins w a s).2)
        then Some (get_plugin_info name (load_plugins w a s).2)
        else None.
Proof.
  intros Hempty. unfold get_plugins_info. split.
  - rewrite foldl_dict_set_fresh
      by (cbn [dict_keys map app]; by apply load_plugins_keys_NoDup).
    unfold dict_keys. cbn [List.app]. rewrite map_map. cbn [fst].
    apply map_id.
  - intros name. by rewrite foldl_dict_set_get.
Qed.

Lemma plugins_document_lists_registry_witness :
  plugins fresh = []
  ∧ dict_keys (get_plugins_info sample_final) = ["ILL"; "X"]
  ∧ dict_get "ILL" (get_plugins_info sample_final)
    = Some (VDict [("plugin_main_file", "ill.py"); ("plugin_version", "1.0")])
  ∧ dict_get "GitHub" (get_plugins_info sample_final) = None.
Proof.
  split; [reflexivity|].
  destruct (plugins_document_lists_registry sample_world (FastAPI []) fresh
              eq_refl) as [Hkeys Hget].
  split; [exact Hkeys|]. split.
  - exact (Hget "ILL").
  - exact (Hget "GitHub").
Defined.

(** ** What leaves [load_plugins] *)



(** X15. On a plugin root that exists and cannot be read (a regular file,
    a directory that may not be listed), [load_plugins] attempts the
    plugins of lines 30 and 41 whose directories exist, in order, and then
    raises the error of [iterdir] (line 47), unless one of those attempts
    let an exception through before. *)
Theorem load_plugins_unreadable_root o a s msg :
  os_stat_error o (plugin_dir s) = None →
  w_exists (os_world o) (plugin_dir s) = true →
  os_listdir_error o (plugin_dir s) = Some msg →
  (∀ n, n ∈ ["ILL"; "TTS"; "AntiPublic-Web"; "GitHub"] →
        os_stat_error o (plugin_dir s // n) = None) →
  load_plugins_os o a s
  = match attempt_all_os o
            (LoadOrderSpec.phase1 (os_world o) (plugin_dir s)
             ++ LoadOrderSpec.phase2 (os_world o) (plugin_dir s))
            (set_app a s) with
    | (Returned _, s') => (Raised (PyException "OSError" msg), s')
    | (Raised e, s') => (Raised e, s')
    end.
Proof.
  intros Hstat Hroot Hlist Hnames. unfold load_plugins_os.
  unfold mbind at 1. unfold Py_bind at 1. unfold modify at 1.
  unfold mbind at 1. unfold Py_bind at 1. unfold gets at 1.
  cbn [plugin_dir set_app].
  unfold mbind at 1. unfold Py_bind at 1. unfold path_exists at 1.
  rewrite Hstat. unfold mret at 1. unfold Py_ret at 1.
  rewrite Hroot. cbn [negb].
  unfold mbind at 1. unfold Py_bind at 1.
  rewrite load_in_order_os_spec
    by (intros n Hn; apply Hnames; set_solver).
  rewrite attempt_all_os_app, phase1_present.
  fold LoadOrderSpec.priority_list.
  destruct (attempt_all_os o _ (set_app a s)) as [[[]|e] s1]; [|reflexivity].
  rewrite phase2_present.
  change (LoadOrderSpec.present (os_world o) (plugin_dir s)
            [LoadOrderSpec.catch_all])
    with (if LoadOrderSpec.directory_exists (os_world o)
               (plugin_dir s // "GitHub")
          then ["GitHub"] else []).
  unfold mbind at 1. unfold Py_bind at 1.
  rewrite exists_and_is_dir_answers by (apply Hnames; set_solver).
  destruct (LoadOrderSpec.directory_exists _ _).
  - cbn [map]. rewrite attempt_all_os_cons.
    unfold mbind at 1. unfold Py_bind at 1.
    unfold mbind at 1. unfold Py_bind at 1.
    destruct (_load_plugin_os o (plugin_dir s // "GitHub") s1)
      as [[[]|e] s2]; [|reflexivity].
    cbn [attempt_all_os]. os_step. by rewrite Hlist.
  - cbn [map attempt_all_os]. os_step. by rewrite Hlist.
Qed.

Lemma load_plugins_unreadable_root_witness :
  w_exists (os_world file_root_os) (plugin_dir fresh) = true
  ∧ os_listdir_error file_root_os (plugin_dir fresh) = Some "Not a directory"
  ∧ load_plugins_os file_root_os (FastAPI []) fresh
    = (Raised (PyException "OSError" "Not a directory"),
       set_app (FastAPI []) fresh).
Proof.
  split; [reflexivity|]. split; [reflexivity|].
  rewrite (load_plugins_unreadable_root file_root_os (FastAPI []) fresh
             "Not a directory" eq_refl eq_refl eq_refl);
    [vm_compute; reflexivity|].
  intros n Hn. reflexivity.
Defined.
